(** * pdf_file_compressor: a shallow embedding of [PDFCompressor]

    The program ([src/pdf_file_compressor.py]) is a thin orchestration layer
    over two libraries, PyMuPDF ([fitz]) and Pillow ([PIL.Image]).  The two
    methods that carry the logic, [compress_image] and [compress_pdf], are
    embedded below as computations in a state-and-exception monad.  The state
    (the [World]) holds what the methods can observe or change: the files on
    storage, the document handles that are open, the pages of the output
    document, the records handed to the logger and the chronological list of
    library calls.  What a library call answers (a parsed document, decoded
    image data, encoded bytes, or an exception) is not program logic; it is
    taken from a [Library] value, one function per library entry point.

    Conventions.
    - Python [int] is [Z]; page indices are [nat].
    - Python [float] is a carrier [F] with the operations the program uses
      (class [PyFloat]); nothing is assumed about rounding.  The rationals
      are one instance, used to evaluate the model on concrete runs.
    - Exceptions are instances of subclasses of [Exception]: the only ones
      the libraries raise on bad input, and the ones [except Exception]
      catches.
    - [str] values (paths, format hints, modes) are strings; how [lower]
      and [upper] case them is a parameter (class [PyStr]) fixed only on
      ASCII text. *)

From Stdlib Require Import ZArith QArith Strings.String Strings.Ascii Strings.Byte.
From Stdlib Require Import Lists.List Bool Lia.
From stdpp Require Import base option list gmap strings.
Import ListNotations.

Local Open Scope string_scope.
Local Open Scope list_scope.

(** ** Python values *)

Definition bytes := list byte.

Record exn := Exn { exn_type : string; exn_msg : string }.

(** The arithmetic the program performs on floats. *)
Class PyFloat (F : Type) := {
  float_of_int : Z -> F;       (* the conversion in [1 - x] and [x * 100] *)
  int_truediv : Z -> Z -> F;   (* [a / b] on two ints, [b] non-zero *)
  fsub : F -> F -> F;
  fmul : F -> F -> F;
  feqb : F -> F -> bool;       (* [x == y] *)
  fltb : F -> F -> bool        (* [x < y] *)
}.

#[export] Instance Q_PyFloat : PyFloat Q := {
  float_of_int := inject_Z;
  int_truediv a b := Qdiv (inject_Z a) (inject_Z b);
  fsub := Qminus;
  fmul := Qmult;
  feqb := Qeq_bool;
  fltb x y := negb (Qle_bool y x)
}.

(** [str.lower] and [str.upper].  Python cases text with the Unicode tables,
    which are not reproduced here: the two methods are taken from a class,
    and all that is asked of them is what they do on ASCII text, where they
    change the letters [A]-[Z] and [a]-[z] and nothing else. *)
Definition lower_ascii (c : ascii) : ascii :=
  let n := nat_of_ascii c in
  if (65 <=? n)%nat && (n <=? 90)%nat then ascii_of_nat (n + 32) else c.

Definition upper_ascii (c : ascii) : ascii :=
  let n := nat_of_ascii c in
  if (97 <=? n)%nat && (n <=? 122)%nat then ascii_of_nat (n - 32) else c.

Fixpoint ascii_lower (s : string) : string :=
  match s with
  | EmptyString => EmptyString
  | String c s' => String (lower_ascii c) (ascii_lower s')
  end.

Fixpoint ascii_upper (s : string) : string :=
  match s with
  | EmptyString => EmptyString
  | String c s' => String (upper_ascii c) (ascii_upper s')
  end.

Fixpoint is_ascii (s : string) : bool :=
  match s with
  | EmptyString => true
  | String c s' => (nat_of_ascii c <? 128)%nat && is_ascii s'
  end.

Class PyStr := {
  lower : string -> string;
  upper : string -> string;
  lower_ascii_text : forall s, is_ascii s = true -> lower s = ascii_lower s;
  upper_ascii_text : forall s, is_ascii s = true -> upper s = ascii_upper s
}.

(** Casing byte by byte: Python's casing of ASCII text, used to evaluate the
    model on runs whose format hints are ASCII. *)
#[export] Instance bytewise_PyStr : PyStr := {|
  lower := ascii_lower;
  upper := ascii_upper;
  lower_ascii_text := fun _ _ => eq_refl;
  upper_ascii_text := fun _ _ => eq_refl
|}.

(** [x in (a, b, ...)] on strings. *)
Definition str_in (x : string) (xs : list string) : bool :=
  existsb (String.eqb x) xs.

(** ** PyMuPDF data *)

Section Model.

Context {F : Type} `{PyFloat F} {casing : PyStr}.

(** [fitz.Rect].  Its truth value follows PyMuPDF's rule for geometry
    objects: [bool(r)] is false exactly when all four coordinates are zero.
    [width] and [height] are the properties of the same name. *)
Record Rect := mkRect { x0 : F; y0 : F; x1 : F; y1 : F }.

Definition fzero : F := float_of_int 0.

Definition Rect_bool (r : Rect) : bool :=
  negb (feqb (x0 r) fzero && feqb (y0 r) fzero
        && feqb (x1 r) fzero && feqb (y1 r) fzero).

Definition fmax0 (d : F) : F := if fltb fzero d then d else fzero.

Definition Rect_width (r : Rect) : F := fmax0 (fsub (x1 r) (x0 r)).
Definition Rect_height (r : Rect) : F := fmax0 (fsub (y1 r) (y0 r)).

(** A rectangle that encloses no area. *)
Definition zero_area (r : Rect) : bool :=
  feqb (fmul (fsub (x1 r) (x0 r)) (fsub (y1 r) (y0 r))) fzero.

(** [Rect.is_empty]: [x0 >= x1 or y0 >= y1]. *)
Definition fgeb (a b : F) : bool := fltb b a || feqb a b.

Definition Rect_is_empty (r : Rect) : bool :=
  fgeb (x0 r) (x1 r) || fgeb (y0 r) (y1 r).

(** One entry of [page.get_images(full=True)]; [img[0]] is the xref. *)
Record ImgItem := mkImg { img_xref : Z; img_name : string }.

(** A page of the source document and the document itself. *)
Record SourcePage := mkPage { rect : Rect; get_images : list ImgItem }.

Abbreviation SourceDoc := (list SourcePage).

(** The dict returned by [extract_image]: either empty (falsy, [None] here)
    or carrying the keys ["image"] and ["ext"]. *)
Record BaseImage := mkBase { bi_image : bytes; bi_ext : string }.

(** What has been drawn on an output page. *)
Inductive Drawing :=
| ShownPage (r : Rect) (pno : nat)          (* show_pdf_page(r, src, pno) *)
| InsertedImage (r : Rect) (stream : bytes) (* insert_image(r, stream=...) *).

Record OutPage := mkOut { op_width : F; op_height : F; op_content : list Drawing }.

Inductive Handle := SourceDocument | OutputDocument.

#[global] Instance Handle_eq_dec : EqDecision Handle.
Proof. solve_decision. Defined.

(** ** Pillow data

    Images are kept symbolic: the term records how the object handed to the
    encoder was obtained. *)
Inductive PILImage :=
| Opened (m : string) (sz : Z * Z) (data : bytes) (* Image.open(BytesIO(data)) *)
| New (m : string) (sz : Z * Z) (color : Z * Z * Z) (* Image.new(m, sz, color) *)
| Pasted (background im mask : PILImage)  (* background after paste(im, mask=mask) *)
| Band (im : PILImage) (index : Z)        (* im.split()[index] *).

Fixpoint mode (im : PILImage) : string :=
  match im with
  | Opened m _ _ => m
  | New m _ _ => m
  | Pasted background _ _ => mode background
  | Band _ _ => "L"
  end.

Fixpoint size (im : PILImage) : Z * Z :=
  match im with
  | Opened _ sz _ => sz
  | New _ sz _ => sz
  | Pasted background _ _ => size background
  | Band im' _ => size im'
  end.

(** The keyword arguments of [image.save]; [optimize] is [None] when the
    keyword is not passed. *)
Record SaveParams := mkSave { sp_format : string; sp_quality : Z; sp_optimize : option bool }.

(** ** Logging *)

Inductive Level := INFO | ERROR.

(** The records handed to the logger, with the values their f-strings
    format. *)
Inductive Message :=
| StartingCompression (path : string)
| ProcessingPage (i total : nat)
| CompressionComplete (path : string)
| OriginalSizeKB (kb : F)
| CompressedSizeKB (kb : F)
| CompressionRatio (percent : F)
| ErrorCompressingImage (e : exn)
| ErrorCompressingPDF (e : exn).

(** ** Library calls *)

Inductive Call :=
| CFitzOpen (path : string)
| CFitzNew
| CNewPage (w h : F)
| CShowPdfPage (output_page : nat) (r : Rect) (pno : nat)
| CExtractImage (xref : Z)
| CGetImageBbox (pno : nat) (img : ImgItem)
| CInsertImage (output_page : nat) (r : Rect) (stream : bytes)
| CSave (pages : list OutPage) (path : string) (garbage : Z) (deflate clean : bool)
| CClose (h : Handle)
| CImageOpen (data : bytes)
| CSplit (im : PILImage)
| CPaste (background im mask : PILImage)
| CImageSave (im : PILImage) (p : SaveParams).

(** What [Document.save] leaves behind: a file of some size, or an exception
    and possibly a partial file. *)
Inductive SaveOutcome :=
| Saved (file_size : Z)
| SaveFailed (e : exn) (partial : option Z).

(** The answers of the two libraries. *)
Record Library := mkLibrary {
  lib_fitz_open : string -> exn + SourceDoc;
  lib_show_pdf_page : Rect -> nat -> option exn;
  lib_extract_image : Z -> exn + option BaseImage;
  lib_get_image_bbox : nat -> ImgItem -> exn + Rect;
  lib_insert_image : Rect -> bytes -> option exn;
  lib_save : list OutPage -> string -> SaveOutcome;
  lib_Image_open : bytes -> exn + (string * (Z * Z));
  lib_split : PILImage -> option exn;
  lib_paste : PILImage -> PILImage -> PILImage -> option exn;
  lib_Image_save : PILImage -> SaveParams -> exn + bytes
}.

(** ** The world *)

Record World := mkWorld {
  fs : gmap string Z;               (* files on storage and their byte sizes *)
  open_docs : list Handle;          (* document handles not yet closed *)
  out_pages : list OutPage;         (* pages of the output document *)
  log : list (Level * Message);     (* logger records, oldest first *)
  calls : list (Call * option exn)  (* library calls and what they raised *)
}.

Definition set_fs (f : gmap string Z) (w : World) : World :=
  mkWorld f (open_docs w) (out_pages w) (log w) (calls w).
Definition set_open_docs (hs : list Handle) (w : World) : World :=
  mkWorld (fs w) hs (out_pages w) (log w) (calls w).
Definition set_out_pages (ps : list OutPage) (w : World) : World :=
  mkWorld (fs w) (open_docs w) ps (log w) (calls w).
Definition add_log (r : Level * Message) (w : World) : World :=
  mkWorld (fs w) (open_docs w) (out_pages w) (log w ++ [r]) (calls w).
Definition add_call (c : Call) (o : option exn) (w : World) : World :=
  mkWorld (fs w) (open_docs w) (out_pages w) (log w) (calls w ++ [(c, o)]).

Definition initial_world (files : gmap string Z) : World :=
  mkWorld files [] [] [] [].

(** ** The monad: state plus exceptions *)

Definition M (A : Type) : Type := World -> (exn + A) * World.

Definition ret {A} (a : A) : M A := fun w => (inr a, w).

Definition raise {A} (e : exn) : M A := fun w => (inl e, w).

Definition bind {A B} (m : M A) (k : A -> M B) : M B :=
  fun w => match m w with
           | (inr a, w') => k a w'
           | (inl e, w') => (inl e, w')
           end.

(** [try: body except Exception as e: handler e]. *)
Definition try_except {A} (body : M A) (handler : exn -> M A) : M A :=
  fun w => match body w with
           | (inr a, w') => (inr a, w')
           | (inl e, w') => handler e w'
           end.

Fixpoint for_each {A} (xs : list A) (body : A -> M unit) : M unit :=
  match xs with
  | [] => ret tt
  | x :: xs' => bind (body x) (fun _ => for_each xs' body)
  end.

End Model.

Arguments Rect F : clear implicits.
Arguments SourcePage F : clear implicits.
Arguments Drawing F : clear implicits.
Arguments OutPage F : clear implicits.
Arguments Message F : clear implicits.
Arguments Call F : clear implicits.
Arguments Library F : clear implicits.
Arguments World F : clear implicits.
Arguments M F A : clear implicits.

(** The source document is the list of its pages. *)
Abbreviation SourceDoc F := (list (SourcePage F)).

Notation "x <- m ;; k" := (bind m (fun x => k))
  (at level 100, m at next level, right associativity, only parsing).
Notation "m ;;; k" := (bind m (fun _ => k))
  (at level 100, k at level 200, right associativity, only parsing).

(** ** Primitives: the operating system, the logger and the libraries *)

Section Program.

Context {F : Type} `{PyFloat F} {casing : PyStr}.
Variable lib : Library F.

Abbreviation M := (M F).
Abbreviation World := (World F).

(** [Path.exists()]. *)
Definition path_exists (path : string) : M bool :=
  fun w => (inr (bool_decide (is_Some (fs w !! path))), w).

(** [os.path.getsize(path)]; a missing file raises. *)
Definition getsize (path : string) : M Z :=
  fun w => match fs w !! path with
           | Some n => (inr n, w)
           | None => (inl (Exn "FileNotFoundError" path), w)
           end.

(** [a / b] on ints. *)
Definition truediv (a b : Z) : M F :=
  if (b =? 0)%Z then raise (Exn "ZeroDivisionError" "division by zero")
  else ret (int_truediv a b).

Definition logger_info (msg : Message F) : M unit :=
  fun w => (inr tt, add_log (INFO, msg) w).

Definition logger_error (msg : Message F) : M unit :=
  fun w => (inr tt, add_log (ERROR, msg) w).

(** A library call that answers with a value or raises; the call and what it
    raised are appended to the trace. *)
Definition call_value {A} (c : Call F) (answer : exn + A) : M A :=
  fun w => match answer with
           | inr a => (inr a, add_call c None w)
           | inl e => (inl e, add_call c (Some e) w)
           end.

Definition call_unit (c : Call F) (answer : option exn) : M unit :=
  call_value c (match answer with Some e => inl e | None => inr tt end).

Definition modify (f : World -> World) : M unit :=
  fun w => (inr tt, f w).

(** [fitz.open(path)]: on success the source handle is open. *)
Definition fitz_open (path : string) : M (SourceDoc F) :=
  doc <- call_value (CFitzOpen path) (lib_fitz_open lib path);;
  modify (fun w => set_open_docs (open_docs w ++ [SourceDocument]) w);;;
  ret doc.

(** [fitz.open()]: a new, empty output document. *)
Definition fitz_new : M unit :=
  call_unit CFitzNew None;;;
  modify (fun w => set_out_pages [] (set_open_docs (open_docs w ++ [OutputDocument]) w)).

(** [pdf_document[page_num]]. *)
Definition getitem (doc : SourceDoc F) (page_num : nat) : M (SourcePage F) :=
  match doc !! page_num with
  | Some page => ret page
  | None => raise (Exn "IndexError" "page not in document")
  end.

(** [output_pdf.new_page(width=w, height=h)]: appends a page, returned here
    as its index in the output document. *)
Definition new_page (w h : F) : M nat :=
  call_unit (CNewPage w h) None;;;
  fun wd => (inr (length (out_pages wd)),
             set_out_pages (out_pages wd ++ [mkOut w h []]) wd).

Definition draw (output_page : nat) (d : Drawing F) : M unit :=
  modify (fun w =>
    set_out_pages
      (alter (fun p => mkOut (op_width p) (op_height p) (op_content p ++ [d]))
             output_page (out_pages w)) w).

(** [output_page.show_pdf_page(r, pdf_document, pno)]. *)
Definition show_pdf_page (output_page : nat) (r : Rect F) (pno : nat) : M unit :=
  call_unit (CShowPdfPage output_page r pno) (lib_show_pdf_page lib r pno);;;
  draw output_page (ShownPage r pno).

(** [pdf_document.extract_image(xref)]. *)
Definition extract_image (xref : Z) : M (option BaseImage) :=
  call_value (CExtractImage xref) (lib_extract_image lib xref).

(** [page.get_image_bbox(img)]. *)
Definition get_image_bbox (pno : nat) (img : ImgItem) : M (Rect F) :=
  call_value (CGetImageBbox pno img) (lib_get_image_bbox lib pno img).

(** [output_page.insert_image(r, stream=stream)]. *)
Definition insert_image (output_page : nat) (r : Rect F) (stream : bytes) : M unit :=
  call_unit (CInsertImage output_page r stream) (lib_insert_image lib r stream);;;
  draw output_page (InsertedImage r stream).

(** [output_pdf.save(path, garbage=4, deflate=True, clean=True)]. *)
Definition save (path : string) : M unit :=
  fun w =>
    let c := CSave (out_pages w) path 4 true true in
    match lib_save lib (out_pages w) path with
    | Saved n => (inr tt, set_fs (<[path := n]> (fs w)) (add_call c None w))
    | SaveFailed e None => (inl e, add_call c (Some e) w)
    | SaveFailed e (Some n) =>
        (inl e, set_fs (<[path := n]> (fs w)) (add_call c (Some e) w))
    end.

(** [doc.close()]. *)
Definition close (h : Handle) : M unit :=
  call_unit (CClose h) None;;;
  modify (fun w =>
    set_open_docs (filter (fun h' => h' <> h) (open_docs w)) w).

(** [Image.open(io.BytesIO(data))]. *)
Definition Image_open (data : bytes) : M PILImage :=
  hdr <- call_value (CImageOpen data) (lib_Image_open lib data);;
  ret (Opened (fst hdr) (snd hdr) data).

(** [im.split()[-1]]. *)
Definition split_last (im : PILImage) : M PILImage :=
  call_unit (CSplit im) (lib_split lib im);;;
  ret (Band im (-1)).

(** [background.paste(im, mask=mask)]; the answer is [background] as it is
    after the call. *)
Definition paste (background im mask : PILImage) : M PILImage :=
  call_unit (CPaste background im mask) (lib_paste lib background im mask);;;
  ret (Pasted background im mask).

(** [im.save(buffer, **p)]; the answer is the content of the buffer. *)
Definition Image_save (im : PILImage) (p : SaveParams) : M bytes :=
  call_value (CImageSave im p) (lib_Image_save lib im p).

(** ** The class *)

Record PDFCompressor := mkPDFCompressor {
  input_path : string;
  output_path : string;
  image_quality : Z
}.

(** [__init__]; [image_quality] defaults to 30 when the caller omits it. *)
Definition default_image_quality : Z := 30.

Definition init (input_path output_path : string) (image_quality : Z) : PDFCompressor :=
  mkPDFCompressor input_path output_path image_quality.

Variable self : PDFCompressor.

(** [compress_image] (lines 22-55).  Its two conditionals are named:
    [normalise_mode] is the [if image.mode in ('RGBA', 'LA')] of lines 28-32,
    [save_params] gives the arguments of the [image.save] chosen by the
    [if]/[elif]/[else] of lines 34-48. *)
Definition normalise_mode (image : PILImage) : M PILImage :=
  if str_in (mode image) ["RGBA"; "LA"] then
    let background := New "RGB" (size image) (255, 255, 255)%Z in
    mask <- split_last image;;
    paste background image mask
  else ret image.

Definition save_params (image_ext : string) : SaveParams :=
  if str_in (lower image_ext) ["jpg"; "jpeg"] then
    mkSave "JPEG" (image_quality self) (Some true)
  else if String.eqb (lower image_ext) "png" then
    mkSave "PNG" (image_quality self) (Some true)
  else
    mkSave (upper image_ext) (image_quality self) None.

Definition compress_image (image_bytes : bytes) (image_ext : string) : M (option bytes) :=
  try_except
    (image <- Image_open image_bytes;;
     image <- normalise_mode image;;
     compressed_bytes <- Image_save image (save_params image_ext);;
     ret (Some compressed_bytes))
    (fun e =>
       logger_error (ErrorCompressingImage e);;;
       ret None).

(** [compress_pdf] (lines 57-124): the body of the inner loop, of the outer
    loop, of the [try] block, and the method.  [if images:] is the match on
    the list; the index of [enumerate(images)] is not used by the loop body
    and is left out.  [if base_image:], [if compressed_bytes:] and
    [if image_rect:] are the truth values of a dict, of [None] or a
    [BytesIO] object (always truthy), and of a [Rect]. *)
Definition process_image (page_num output_page : nat) (img : ImgItem) : M unit :=
  let xref := img_xref img in
  base_image <- extract_image xref;;
  match base_image with
  | Some d =>
      let image_bytes := bi_image d in
      let image_ext := bi_ext d in
      compressed_bytes <- compress_image image_bytes image_ext;;
      match compressed_bytes with
      | Some stream =>
          image_rect <- get_image_bbox page_num img;;
          if Rect_bool image_rect then insert_image output_page image_rect stream
          else ret tt
      | None => ret tt
      end
  | None => ret tt
  end.

Definition process_page (pdf_document : SourceDoc F) (total_pages page_num : nat) : M unit :=
  logger_info (ProcessingPage (page_num + 1) total_pages);;;
  page <- getitem pdf_document page_num;;
  let images := get_images page in
  output_page <- new_page (Rect_width (rect page)) (Rect_height (rect page));;
  show_pdf_page output_page (rect page) page_num;;;
  match images with
  | [] => ret tt
  | _ :: _ => for_each images (process_image page_num output_page)
  end.

Definition compress_pdf_body : M bool :=
  found <- path_exists (input_path self);;
  (if found then ret tt
   else raise (Exn "FileNotFoundError"
                   ("Input file not found: " ++ input_path self)));;;
  logger_info (StartingCompression (input_path self));;;
  pdf_document <- fitz_open (input_path self);;
  fitz_new;;;
  let total_pages := length pdf_document in
  for_each (seq 0 total_pages) (process_page pdf_document total_pages);;;
  save (output_path self);;;
  original_size <- getsize (input_path self);;
  compressed_size <- getsize (output_path self);;
  quotient <- truediv compressed_size original_size;;
  let compression_ratio :=
    fmul (fsub (float_of_int 1) quotient) (float_of_int 100) in
  logger_info (CompressionComplete (output_path self));;;
  original_kb <- truediv original_size 1024;;
  logger_info (OriginalSizeKB original_kb);;;
  compressed_kb <- truediv compressed_size 1024;;
  logger_info (CompressedSizeKB compressed_kb);;;
  logger_info (CompressionRatio compression_ratio);;;
  close OutputDocument;;;
  close SourceDocument;;;
  ret true.

Definition compress_pdf : M bool :=
  try_except compress_pdf_body
    (fun e =>
       logger_error (ErrorCompressingPDF e);;;
       ret false).

End Program.

(** [main] (lines 126-132): a compressor on two fixed paths with quality 50;
    what [compress_pdf] returns is dropped and [main] returns [None]. *)
Definition main {F : Type} `{PyFloat F} {casing : PyStr} (lib : Library F) : M F unit :=
  let input_pdf := "C:\Users\Vadym\Desktop\pdfCompressor\test_1.pdf" in
  let output_pdf := "C:\Users\Vadym\Desktop\pdfCompressor\compressed.pdf" in
  let compressor := init input_pdf output_pdf 50 in
  _ <- compress_pdf lib compressor;;
  ret tt.

(** ** Vocabulary of the statements

    [wp m Q E w]: run from [w], the computation [m] either returns [a] in a
    world satisfying [Q a], or raises [e] in a world satisfying [E e]. *)

Section Vocabulary.

Context {F : Type} `{PyFloat F} {casing : PyStr}.
Variable lib : Library F.
Variable self : PDFCompressor.

Abbreviation M := (M F).
Abbreviation World := (World F).

Definition wp {A} (m : M A) (Q : A -> World -> Prop) (E : exn -> World -> Prop)
    (w : World) : Prop :=
  match m w with
  | (inr a, w') => Q a w'
  | (inl e, w') => E e w'
  end.

(** The library calls made between two worlds of one run. *)
Definition calls_since (w w' : World) : list (Call F * option exn) :=
  drop (length (calls w)) (calls w').

(** The four records of the report, as the last records of a log. *)
Definition report_logged (w : World) : Prop :=
  exists l original_kb compressed_kb ratio,
    log w = l ++ [(INFO, CompressionComplete (output_path self));
                  (INFO, OriginalSizeKB original_kb);
                  (INFO, CompressedSizeKB compressed_kb);
                  (INFO, CompressionRatio ratio)].

Definition failure_logged (w : World) : Prop :=
  exists l e, log w = l ++ [(ERROR, ErrorCompressingPDF e)].

(** The value the program computes for the ratio from the two sizes. *)
Definition ratio_of (compressed_size original_size : Z) : F :=
  fmul (fsub (float_of_int 1) (int_truediv compressed_size original_size))
       (float_of_int 100).

(** Output page [o] is the counterpart of source page [p], the page of
    index [i]: same width and height, and the first thing drawn on it is the
    reproduction of source page [i]. *)
Definition page_matches (i : nat) (p : SourcePage F) (o : OutPage F) : Prop :=
  op_width o = Rect_width (rect p) /\
  op_height o = Rect_height (rect p) /\
  head (op_content o) = Some (ShownPage (rect p) i).

Definition pages_match (doc : SourceDoc F) (pages : list (OutPage F)) : Prop :=
  length pages = length doc /\
  forall i p o, doc !! i = Some p -> pages !! i = Some o -> page_matches i p o.

(** Calls into Pillow, every encode among them carrying quality [q]. *)
Definition pillow_call (q : Z) (c : Call F) : Prop :=
  match c with
  | CImageOpen _ | CSplit _ | CPaste _ _ _ => True
  | CImageSave _ p => sp_quality p = q
  | _ => False
  end.

(** Calls other than [save], every encode among them carrying quality [q]. *)
Definition benign (q : Z) (c : Call F) : Prop :=
  match c with
  | CSave _ _ _ _ _ => False
  | CImageSave _ p => sp_quality p = q
  | _ => True
  end.

(** Every [save] in a trace was handed pages that match the document at
    the input path. *)
Definition save_matches_source (c : Call F * option exn) : Prop :=
  match fst c with
  | CSave pages _ _ _ _ =>
      exists doc, lib_fitz_open lib (input_path self) = inr doc /\
                  pages_match doc pages
  | _ => True
  end.

(** Every encode in a trace carries quality [q]. *)
Definition encodes_with (q : Z) (c : Call F * option exn) : Prop :=
  match fst c with
  | CImageSave _ p => sp_quality p = q
  | _ => True
  end.

(** A decode or encode error for one image: the first Pillow call of
    [compress_image] that raises, and the exception it raises. *)
Inductive pillow_fails (data : bytes) (ext : string) : exn -> Prop :=
| decode_fails e :
    lib_Image_open lib data = inl e ->
    pillow_fails data ext e
| split_fails hdr e :
    lib_Image_open lib data = inr hdr ->
    str_in (fst hdr) ["RGBA"; "LA"] = true ->
    lib_split lib (Opened (fst hdr) (snd hdr) data) = Some e ->
    pillow_fails data ext e
| paste_fails hdr e :
    let image := Opened (fst hdr) (snd hdr) data in
    lib_Image_open lib data = inr hdr ->
    str_in (fst hdr) ["RGBA"; "LA"] = true ->
    lib_split lib image = None ->
    lib_paste lib (New "RGB" (snd hdr) (255, 255, 255)%Z) image
              (Band image (-1)) = Some e ->
    pillow_fails data ext e
| encode_fails_flattened hdr e :
    let image := Opened (fst hdr) (snd hdr) data in
    let background := New "RGB" (snd hdr) (255, 255, 255)%Z in
    lib_Image_open lib data = inr hdr ->
    str_in (fst hdr) ["RGBA"; "LA"] = true ->
    lib_split lib image = None ->
    lib_paste lib background image (Band image (-1)) = None ->
    lib_Image_save lib (Pasted background image (Band image (-1)))
                   (save_params self ext) = inl e ->
    pillow_fails data ext e
| encode_fails hdr e :
    lib_Image_open lib data = inr hdr ->
    str_in (fst hdr) ["RGBA"; "LA"] = false ->
    lib_Image_save lib (Opened (fst hdr) (snd hdr) data)
                   (save_params self ext) = inl e ->
    pillow_fails data ext e.

(** PyMuPDF answers without raising the calls a run makes on the document
    [doc]: opening the input, reproducing each page, fetching and locating
    each listed image, inserting on a truthy rectangle of a listed image
    bytes that an encode answered, and saving pages that match [doc]. *)
Record pymupdf_succeeds (doc : SourceDoc F) : Prop := {
  ok_open : lib_fitz_open lib (input_path self) = inr doc;
  ok_show : forall k page,
    doc !! k = Some page -> lib_show_pdf_page lib (rect page) k = None;
  ok_extract : forall k page img,
    doc !! k = Some page -> In img (get_images page) ->
    exists d, lib_extract_image lib (img_xref img) = inr d;
  ok_bbox : forall k page img,
    doc !! k = Some page -> In img (get_images page) ->
    exists r, lib_get_image_bbox lib k img = inr r;
  ok_insert : forall k page img r im p stream,
    doc !! k = Some page -> In img (get_images page) ->
    lib_get_image_bbox lib k img = inr r -> Rect_bool r = true ->
    lib_Image_save lib im p = inr stream ->
    lib_insert_image lib r stream = None;
  ok_save : forall pages,
    pages_match doc pages ->
    exists n, lib_save lib pages (output_path self) = Saved n
}.

(** What [compress_image] does with an image that decodes to [image] when
    no Pillow call raises before the encode: the image is flattened onto a
    white background when its mode is ["RGBA"] or ["LA"], and the calls made
    before the encode are the decode and, when flattening, the split and the
    paste. *)
Definition flattened (image : PILImage) : PILImage :=
  Pasted (New "RGB" (size image) (255, 255, 255)%Z) image (Band image (-1)).

Definition encoder_input (image : PILImage) : PILImage :=
  if str_in (mode image) ["RGBA"; "LA"] then flattened image else image.

Definition preparation (data : bytes) (image : PILImage) :
    list (Call F * option exn) :=
  (CImageOpen data, None) ::
  (if str_in (mode image) ["RGBA"; "LA"]
   then [(CSplit image, None);
         (CPaste (New "RGB" (size image) (255, 255, 255)%Z) image
                 (Band image (-1)), None)]
   else []).

(** Pillow's modes with an alpha band: ["RGBA"], ["LA"], ["PA"] and the
    premultiplied ["RGBa"] and ["La"]. *)
Definition carries_alpha (m : string) : bool :=
  str_in m ["RGBA"; "LA"; "PA"; "RGBa"; "La"].

(** The progress records of a log: the pairs [(i, total)] of its
    "Processing page i/total" records, in order. *)
Definition progress (record : Level * Message F) : option (nat * nat) :=
  match record with
  | (INFO, ProcessingPage i total) => Some (i, total)
  | _ => None
  end.

Definition progress_log (l : list (Level * Message F)) : list (nat * nat) :=
  omap progress l.

(** The [save] calls among some calls. *)
Definition is_save (c : Call F * option exn) : bool :=
  match fst c with
  | CSave _ _ _ _ _ => true
  | _ => false
  end.

(** From [w] to [w'] nothing was written or saved and no handle was opened
    or closed: storage and handles are the same and the calls made in
    between contain no [save]. *)
Definition untouched (w w' : World) : Prop :=
  fs w' = fs w /\ open_docs w' = open_docs w /\
  exists new, calls w' = calls w ++ new /\
              Forall (fun c => is_save c = false) new.

(** Every [insert_image] of a trace comes right after a successful
    [get_image_bbox] that answered its rectangle, itself right after a
    successful encode that answered its stream; the rectangle is truthy. *)
Definition insert_follows (cs : list (Call F * option exn)) : Prop :=
  forall i k r stream o,
    cs !! i = Some (CInsertImage k r stream, o) ->
    Rect_bool r = true /\
    exists j im p pno img,
      i = S (S j) /\
      cs !! j = Some (CImageSave im p, None) /\
      lib_Image_save lib im p = inr stream /\
      cs !! S j = Some (CGetImageBbox pno img, None) /\
      lib_get_image_bbox lib pno img = inr r.

(** The xrefs handed to [extract_image] by some calls, in order. *)
Definition fetched_xref (c : Call F * option exn) : option Z :=
  match fst c with
  | CExtractImage xref => Some xref
  | _ => None
  end.

Definition fetched_xrefs (cs : list (Call F * option exn)) : list Z :=
  omap fetched_xref cs.

(** The xrefs of the images a document lists, page by page. *)
Definition listed_xrefs (doc : SourceDoc F) : list Z :=
  concat (map (fun p => map img_xref (get_images p)) doc).

(** [extends Q w0 w]: the log of [w] is the log of [w0] followed by records
    [l] with [Q l]. *)
Definition extends (Q : list (Level * Message F) -> Prop) (w0 w : World) : Prop :=
  exists l, log w = log w0 ++ l /\ Q l.

(** The [insert_image] calls among some calls. *)
Definition is_insert (c : Call F * option exn) : bool :=
  match fst c with
  | CInsertImage _ _ _ => true
  | _ => false
  end.

(** The exceptions raised by the [save] calls among some calls. *)
Definition save_error (c : Call F * option exn) : option exn :=
  match c with
  | (CSave _ _ _ _ _, Some e) => Some e
  | _ => None
  end.

(** The output page that only reproduces source page [p], of index [i]. *)
Definition reproduction (i : nat) (p : SourcePage F) : OutPage F :=
  mkOut (Rect_width (rect p)) (Rect_height (rect p)) [ShownPage (rect p) i].

(** No [insert_image] among some calls. *)
Definition no_insert (cs : list (Call F * option exn)) : Prop :=
  forall k r stream o, ~ In (CInsertImage k r stream, o) cs.

End Vocabulary.

Arguments wp {F A} m Q E w : simpl never.
Arguments report_logged {F} self w.
Arguments save_matches_source {F _} lib self c.
Arguments pillow_fails {F casing} lib self data ext e.
Arguments pymupdf_succeeds {F _} lib self doc.
Arguments insert_follows {F _} lib cs.
Arguments failure_logged {F} w.

(** ** Concrete runs

    A two-page document over the rationals: page 0 is US Letter with one
    JPEG image, page 1 is A4 without images.  The variants below change one
    library answer at a time. *)

Module Demo.

Definition r (a b c d : Z) : Rect Q :=
  mkRect (inject_Z a) (inject_Z b) (inject_Z c) (inject_Z d).

Definition img7 : ImgItem := mkImg 7 "Im7".

Definition doc : SourceDoc Q :=
  [ mkPage (r 0 0 612 792) [img7]; mkPage (r 0 0 595 842) [] ].

Definition jpeg_data : bytes := ["255"%byte; "216"%byte; "255"%byte].
Definition encoded : bytes := ["255"%byte; "216"%byte].

Definition files : gmap string Z := {[ "in.pdf" := 1000%Z ]}.

(** [insert_image] refuses an empty rectangle, as PyMuPDF does. *)
Definition empty_rect : exn :=
  Exn "ValueError" "rect must be finite and not empty".

Definition library : Library Q := {|
  lib_fitz_open path :=
    if String.eqb path "in.pdf" then inr doc
    else inl (Exn "FileDataError" "cannot open document");
  lib_show_pdf_page _ _ := None;
  lib_extract_image xref :=
    if (xref =? 7)%Z then inr (Some (mkBase jpeg_data "jpeg")) else inr None;
  lib_get_image_bbox _ _ := inr (r 10 10 110 60);
  lib_insert_image r _ := if Rect_is_empty r then Some empty_rect else None;
  lib_save _ _ := Saved 400;
  lib_Image_open _ := inr ("RGB", (100, 50)%Z);
  lib_split _ := None;
  lib_paste _ _ _ := None;
  lib_Image_save _ _ := inr encoded
|}.

Definition compressor : PDFCompressor := init "in.pdf" "out.pdf" 50.

(** The same library with one answer changed. *)
Definition with_Image_open (f : bytes -> exn + (string * (Z * Z))) : Library Q :=
  mkLibrary (lib_fitz_open library) (lib_show_pdf_page library)
    (lib_extract_image library) (lib_get_image_bbox library)
    (lib_insert_image library) (lib_save library) f
    (lib_split library) (lib_paste library) (lib_Image_save library).

Definition with_bbox (f : nat -> ImgItem -> exn + Rect Q) : Library Q :=
  mkLibrary (lib_fitz_open library) (lib_show_pdf_page library)
    (lib_extract_image library) f
    (lib_insert_image library) (lib_save library) (lib_Image_open library)
    (lib_split library) (lib_paste library) (lib_Image_save library).

Definition with_save (f : list (OutPage Q) -> string -> SaveOutcome) : Library Q :=
  mkLibrary (lib_fitz_open library) (lib_show_pdf_page library)
    (lib_extract_image library) (lib_get_image_bbox library)
    (lib_insert_image library) f (lib_Image_open library)
    (lib_split library) (lib_paste library) (lib_Image_save library).

Definition with_show (f : Rect Q -> nat -> option exn) : Library Q :=
  mkLibrary (lib_fitz_open library) f
    (lib_extract_image library) (lib_get_image_bbox library)
    (lib_insert_image library) (lib_save library) (lib_Image_open library)
    (lib_split library) (lib_paste library) (lib_Image_save library).

(** The image of page 0 cannot be decoded. *)
Definition cannot_identify : exn :=
  Exn "UnidentifiedImageError" "cannot identify image file".
Definition corrupt_image : Library Q :=
  with_Image_open (fun _ => inl cannot_identify).

(** The image of page 0 decodes to palette-with-alpha, to RGBA. *)
Definition pa_image : Library Q :=
  with_Image_open (fun _ => inr ("PA", (100, 50)%Z)).
Definition rgba_image : Library Q :=
  with_Image_open (fun _ => inr ("RGBA", (100, 50)%Z)).

(** The image of page 0 is placed on a rectangle of width zero (empty, so
    [insert_image] refuses it), on the all-zero rectangle. *)
Definition zero_width_bbox : Library Q :=
  with_bbox (fun _ _ => inr (r 10 10 10 50)).
Definition null_bbox : Library Q :=
  with_bbox (fun _ _ => inr (r 0 0 0 0)).

(** The output cannot be written; the second page cannot be reproduced. *)
Definition cannot_write : exn :=
  Exn "RuntimeError" "cannot open file for writing".
Definition save_fails : Library Q :=
  with_save (fun _ _ => SaveFailed cannot_write None).
Definition cannot_show : exn := Exn "ValueError" "nothing to show".
Definition show_fails_on_page_1 : Library Q :=
  with_show (fun _ pno => if (pno =? 1)%nat then Some cannot_show else None).

Definition with_extract (f : Z -> exn + option BaseImage) : Library Q :=
  mkLibrary (lib_fitz_open library) (lib_show_pdf_page library)
    f (lib_get_image_bbox library)
    (lib_insert_image library) (lib_save library) (lib_Image_open library)
    (lib_split library) (lib_paste library) (lib_Image_save library).

Definition with_open (f : string -> exn + SourceDoc Q) : Library Q :=
  mkLibrary f (lib_show_pdf_page library)
    (lib_extract_image library) (lib_get_image_bbox library)
    (lib_insert_image library) (lib_save library) (lib_Image_open library)
    (lib_split library) (lib_paste library) (lib_Image_save library).

Definition with_Image_save (f : PILImage -> SaveParams -> exn + bytes) : Library Q :=
  mkLibrary (lib_fitz_open library) (lib_show_pdf_page library)
    (lib_extract_image library) (lib_get_image_bbox library)
    (lib_insert_image library) (lib_save library) (lib_Image_open library)
    (lib_split library) (lib_paste library) f.

(** A codec that refuses a quality outside 0..100. *)
Definition invalid_configuration : exn :=
  Exn "ValueError" "invalid configuration".
Definition strict_codec : Library Q :=
  with_Image_save (fun _ p =>
    if (0 <=? sp_quality p)%Z && (sp_quality p <=? 100)%Z then inr encoded
    else inl invalid_configuration).

(** The image of page 0 cannot be fetched. *)
Definition bad_xref : exn := Exn "ValueError" "bad xref".
Definition extract_fails : Library Q := with_extract (fun _ => inl bad_xref).

(** A document of two pages of text. *)
Definition text_doc : SourceDoc Q :=
  [ mkPage (r 0 0 612 792) []; mkPage (r 0 0 595 842) [] ].
Definition text_only : Library Q := with_open (fun _ => inr text_doc).

(** The input is not a document. *)
Definition cannot_open : exn := Exn "FileDataError" "cannot open document".
Definition unreadable : Library Q := with_open (fun _ => inl cannot_open).

(** The output replaces the input. *)
Definition in_place : PDFCompressor := init "in.pdf" "in.pdf" 50.

(** The world the runs below start from. *)
Definition start : World Q := initial_world files.

(** The pages the unchanged library hands to [save]. *)
Definition saved_pages : list (OutPage Q) :=
  [ mkOut (Rect_width (r 0 0 612 792)) (Rect_height (r 0 0 612 792))
      [ShownPage (r 0 0 612 792) 0; InsertedImage (r 10 10 110 60) encoded];
    mkOut (Rect_width (r 0 0 595 842)) (Rect_height (r 0 0 595 842))
      [ShownPage (r 0 0 595 842) 1] ].

End Demo.

(** ** Reasoning about computations *)

Section Logic.

Context {F : Type} `{PyFloat F} {casing : PyStr}.

Abbreviation M := (M F).
Abbreviation World := (World F).

Implicit Types w : World.

Lemma wp_ret {A} (a : A) Q E w : Q a w -> wp (ret a) Q E w.
Proof. exact (fun q => q). Qed.

Lemma wp_raise {A} (e : exn) (Q : A -> World -> Prop) E w :
  E e w -> wp (raise e) Q E w.
Proof. exact (fun q => q). Qed.

Lemma wp_bind {A B} (m : M A) (k : A -> M B) Q E w :
  wp m (fun a w' => wp (k a) Q E w') E w -> wp (bind m k) Q E w.
Proof.
  unfold wp, bind. destruct (m w) as [[e | a] w']; trivial.
Qed.

Lemma wp_try_except {A} (body : M A) handler Q E w :
  wp body Q (fun e w' => wp (handler e) Q E w') w ->
  wp (try_except body handler) Q E w.
Proof.
  unfold wp, try_except. destruct (body w) as [[e | a] w']; trivial.
Qed.

Lemma wp_mono {A} (m : M A) (Q Q' : A -> World -> Prop) (E E' : exn -> World -> Prop) w :
  wp m Q E w ->
  (forall a w', Q a w' -> Q' a w') ->
  (forall e w', E e w' -> E' e w') ->
  wp m Q' E' w.
Proof.
  unfold wp. destruct (m w) as [[e | a] w']; auto.
Qed.

Lemma wp_conj {A} (m : M A) (Q1 Q2 : A -> World -> Prop) (E1 E2 : exn -> World -> Prop) w :
  wp m Q1 E1 w -> wp m Q2 E2 w ->
  wp m (fun a w' => Q1 a w' /\ Q2 a w') (fun e w' => E1 e w' /\ E2 e w') w.
Proof.
  unfold wp. destruct (m w) as [[e | a] w']; auto.
Qed.

Lemma wp_any {A} (m : M A) (Q : A -> World -> Prop) (E : exn -> World -> Prop) w :
  (forall a w', Q a w') -> (forall e w', E e w') -> wp m Q E w.
Proof.
  intros Hq He. unfold wp. destruct (m w) as [[e | a] w']; auto.
Qed.

Lemma wp_close (h : Handle) Q E w :
  Q tt (set_open_docs (filter (fun h' => h' <> h) (open_docs w))
          (add_call (CClose h) None w)) ->
  wp (close h) Q E w.
Proof. exact (fun q => q). Qed.

Lemma wp_run {A} (m : M A) Q E w r w' :
  wp m Q E w -> m w = (r, w') ->
  match r with inr a => Q a w' | inl e => E e w' end.
Proof.
  unfold wp. intros Hwp Hrun. rewrite Hrun in Hwp. destruct r; exact Hwp.
Qed.

Lemma wp_modify (f : World -> World) Q E w :
  Q tt (f w) -> wp (modify f) Q E w.
Proof. exact (fun q => q). Qed.

Lemma wp_logger_info msg Q E w :
  Q tt (add_log (INFO, msg) w) -> wp (logger_info msg) Q E w.
Proof. exact (fun q => q). Qed.

Lemma wp_logger_error msg Q E w :
  Q tt (add_log (ERROR, msg) w) -> wp (logger_error msg) Q E w.
Proof. exact (fun q => q). Qed.

Lemma wp_call_value {A} (c : Call F) (answer : exn + A) Q E w :
  match answer with
  | inr a => Q a (add_call c None w)
  | inl e => E e (add_call c (Some e) w)
  end ->
  wp (call_value c answer) Q E w.
Proof. unfold wp, call_value. destruct answer; trivial. Qed.

Lemma wp_call_unit (c : Call F) (answer : option exn) Q E w :
  match answer with
  | None => Q tt (add_call c None w)
  | Some e => E e (add_call c (Some e) w)
  end ->
  wp (call_unit c answer) Q E w.
Proof. unfold call_unit. intros Hq. apply wp_call_value. destruct answer; trivial. Qed.

Lemma wp_path_exists path Q E w :
  Q (bool_decide (is_Some (fs w !! path))) w -> wp (path_exists path) Q E w.
Proof. exact (fun q => q). Qed.

Lemma wp_getsize path Q E w :
  match fs w !! path with
  | Some n => Q n w
  | None => E (Exn "FileNotFoundError" path) w
  end ->
  wp (getsize path) Q E w.
Proof. unfold wp, getsize. destruct (fs w !! path); trivial. Qed.

Lemma wp_truediv (a b : Z) Q E w :
  (b = 0%Z -> E (Exn "ZeroDivisionError" "division by zero") w) ->
  (b <> 0%Z -> Q (int_truediv a b) w) ->
  wp (truediv a b) Q E w.
Proof.
  unfold truediv. intros Hz Hnz. destruct (Z.eqb_spec b 0).
  - apply wp_raise. auto.
  - apply wp_ret. auto.
Qed.

Lemma wp_getitem (doc : SourceDoc F) page_num Q E w :
  match doc !! page_num with
  | Some page => Q page w
  | None => E (Exn "IndexError" "page not in document") w
  end ->
  wp (getitem doc page_num) Q E w.
Proof. unfold getitem. destruct (doc !! page_num); trivial. Qed.

(** The loop rule: [I done] holds after the elements [done] have been
    processed. *)
Lemma wp_for_each_from {A} (body : A -> M unit) (I : list A -> World -> Prop) E :
  forall rest done w,
  (forall done' x rest' w',
      done ++ rest = done' ++ x :: rest' ->
      I done' w' -> wp (body x) (fun _ w'' => I (done' ++ [x]) w'') E w') ->
  I done w ->
  wp (for_each rest body) (fun _ w' => I (done ++ rest) w') E w.
Proof.
  induction rest as [| x rest IH]; intros done w Hbody Hinv.
  - simpl. apply wp_ret. rewrite app_nil_r. exact Hinv.
  - simpl. apply wp_bind.
    eapply wp_mono; [apply (Hbody done x rest w eq_refl Hinv) | | auto].
    intros u w' Hinv'. simpl.
    replace (done ++ x :: rest) with ((done ++ [x]) ++ rest)
      by (rewrite <- app_assoc; reflexivity).
    apply IH; [| exact Hinv'].
    intros done' y rest' w'' Heq. apply (Hbody done' y rest').
    rewrite <- Heq, <- app_assoc. reflexivity.
Qed.

Lemma wp_for_each {A} (xs : list A) (body : A -> M unit) (I : list A -> World -> Prop) E w :
  (forall done x rest w',
      xs = done ++ x :: rest ->
      I done w' -> wp (body x) (fun _ w'' => I (done ++ [x]) w'') E w') ->
  I [] w ->
  wp (for_each xs body) (fun _ w' => I xs w') E w.
Proof.
  intros Hbody Hinv. apply (wp_for_each_from body I E xs [] w); assumption.
Qed.

(** A loop whose body keeps a property of the world keeps it. *)
Lemma wp_for_each_const {A} (xs : list A) (body : A -> M unit) (P : World -> Prop) E w :
  (forall x w', In x xs -> P w' -> wp (body x) (fun _ w'' => P w'') E w') ->
  P w ->
  wp (for_each xs body) (fun _ w' => P w') E w.
Proof.
  intros Hbody Hinv.
  apply (wp_for_each xs body (fun _ => P)); [| exact Hinv].
  intros done x rest w' Heq. apply Hbody. rewrite Heq.
  apply in_or_app. right. left. reflexivity.
Qed.

Lemma wp_save (lib : Library F) (path : string) Q E w :
  match lib_save lib (out_pages w) path with
  | Saved n =>
      Q tt (set_fs (<[path := n]> (fs w))
              (add_call (CSave (out_pages w) path 4 true true) None w))
  | SaveFailed e None =>
      E e (add_call (CSave (out_pages w) path 4 true true) (Some e) w)
  | SaveFailed e (Some n) =>
      E e (set_fs (<[path := n]> (fs w))
             (add_call (CSave (out_pages w) path 4 true true) (Some e) w))
  end ->
  wp (save lib path) Q E w.
Proof.
  unfold wp, save.
  destruct (lib_save lib (out_pages w) path) as [n | e [n |]]; trivial.
Qed.

Lemma wp_new_page (width height : F) Q E w :
  Q (length (out_pages w))
    (set_out_pages (out_pages w ++ [mkOut width height []])
       (add_call (CNewPage width height) None w)) ->
  wp (new_page width height) Q E w.
Proof. exact (fun q => q). Qed.

End Logic.

(** Projections of an updated world. *)
Ltac world_simpl :=
  cbn [fs open_docs out_pages log calls
       set_fs set_open_docs set_out_pages add_log add_call] in *.

(** Case analysis on membership in an explicit list. *)
Ltac in_cases H :=
  simpl in H;
  repeat (lazymatch type of H with
          | _ \/ _ => destruct H as [H | H]; [inversion H; subst; clear H |]
          end);
  try contradiction.

(** One step of symbolic execution of a [wp] goal. *)
Ltac wp_step :=
  cbv beta;
  lazymatch goal with
  | |- wp (bind _ _) _ _ _ => apply wp_bind
  | |- wp (ret _) _ _ _ => apply wp_ret
  | |- wp (raise _) _ _ _ => apply wp_raise
  | |- wp (try_except _ _) _ _ _ => apply wp_try_except
  | |- wp (logger_info _) _ _ _ => apply wp_logger_info
  | |- wp (logger_error _) _ _ _ => apply wp_logger_error
  | |- wp (modify _) _ _ _ => apply wp_modify
  | |- wp (path_exists _) _ _ _ => apply wp_path_exists
  | |- wp (getsize _) _ _ _ => apply wp_getsize
  | |- wp (getitem _ _) _ _ _ => apply wp_getitem
  | |- wp (truediv _ _) _ _ _ => apply wp_truediv; intros ?
  | |- wp (call_unit _ _) _ _ _ => apply wp_call_unit
  | |- wp (call_value _ _) _ _ _ => apply wp_call_value
  | |- wp (close _) _ _ _ => apply wp_close
  | |- wp (save _ _) _ _ _ => apply wp_save
  | |- wp (new_page _ _) _ _ _ => apply wp_new_page
  | |- wp (fitz_open _ _) _ _ _ => unfold fitz_open
  | |- wp fitz_new _ _ _ => unfold fitz_new
  | |- wp (draw _ _) _ _ _ => unfold draw
  | |- wp (show_pdf_page _ _ _ _) _ _ _ => unfold show_pdf_page
  | |- wp (extract_image _ _) _ _ _ => unfold extract_image
  | |- wp (get_image_bbox _ _ _) _ _ _ => unfold get_image_bbox
  | |- wp (insert_image _ _ _ _) _ _ _ => unfold insert_image
  | |- wp (Image_open _ _) _ _ _ => unfold Image_open
  | |- wp (split_last _ _) _ _ _ => unfold split_last
  | |- wp (paste _ _ _ _) _ _ _ => unfold paste
  | |- wp (Image_save _ _ _) _ _ _ => unfold Image_save
  | |- wp (normalise_mode _ _) _ _ _ => unfold normalise_mode
  | |- wp (if ?b then _ else _) _ _ _ => destruct b eqn:?
  | |- wp (match ?x with _ => _ end) _ _ _ => destruct x eqn:?
  | |- match ?x with _ => _ end => destruct x eqn:?
  end.

(** ** The claims *)

Section Claims.

Context {F : Type} `{PyFloat F} {casing : PyStr}.
Variable lib : Library F.
Variable self : PDFCompressor.

Abbreviation World := (World F).

Lemma path_exists_missing (path : string) (w : World) :
  fs w !! path = None -> path_exists path w = (inr false, w).
Proof.
  intros Hmiss. unfold path_exists. rewrite Hmiss. reflexivity.
Qed.

(** C5. If the input path does not exist, [compress_pdf] returns the failure
    value without a single library call (no document is opened, no handle is
    held), storage is left as it was (no output file appears), and the only
    effect is the logged [FileNotFoundError]. *)
Theorem missing_input_fails_before_opening (w : World) :
  fs w !! input_path self = None ->
  exists w',
    compress_pdf lib self w = (inr false, w') /\
    calls w' = calls w /\
    open_docs w' = open_docs w /\
    fs w' = fs w /\
    out_pages w' = out_pages w /\
    log w' = log w ++
      [(ERROR, ErrorCompressingPDF
                 (Exn "FileNotFoundError"
                      ("Input file not found: " ++ input_path self)))].
Proof.
  intros Hmiss. eexists. split.
  - unfold compress_pdf, try_except, compress_pdf_body.
    unfold bind at 1. rewrite (path_exists_missing _ _ Hmiss).
    unfold bind at 1. simpl. reflexivity.
  - simpl. repeat split; reflexivity.
Qed.

Lemma compress_pdf_body_report (w : World) :
  wp (compress_pdf_body lib self)
     (fun b w' => b = true /\ report_logged self w') (fun _ _ => True) w.
Proof.
  unfold compress_pdf_body.
  do 10 (apply wp_bind; apply wp_any; [intros ? ? | intros; exact I]).
  apply wp_bind, wp_logger_info.
  apply wp_bind, wp_truediv; [trivial | intros _].
  apply wp_bind, wp_logger_info.
  apply wp_bind, wp_truediv; [trivial | intros _].
  apply wp_bind, wp_logger_info.
  apply wp_bind, wp_logger_info.
  apply wp_bind, wp_close.
  apply wp_bind, wp_close.
  apply wp_ret. split; [reflexivity |].
  unfold report_logged. world_simpl.
  rewrite <- !app_assoc. simpl. do 4 eexists. reflexivity.
Qed.

(** C4. [compress_pdf] always returns, and returns a boolean: no exception
    leaves the call.  When it returns [True] the log ends with the report
    (completion notice, the two sizes, the ratio); when it returns [False]
    the log ends with the error record of the exception that was caught. *)
Theorem compress_pdf_returns_true_or_false (w : World) :
  exists b w',
    compress_pdf lib self w = (inr b, w') /\
    if b then report_logged self w' else failure_logged w'.
Proof.
  assert (Hwp : wp (compress_pdf lib self)
                   (fun b w' => if b then report_logged self w' else failure_logged w')
                   (fun _ _ => False) w).
  { unfold compress_pdf. apply wp_try_except.
    eapply wp_mono; [apply compress_pdf_body_report | |].
    - intros b w' [-> Hrep]. exact Hrep.
    - intros e w' _. apply wp_bind, wp_logger_error, wp_ret.
      unfold failure_logged. simpl. eauto. }
  unfold wp in Hwp.
  destruct (compress_pdf lib self w) as [[e | b] w'] eqn:Hrun; [contradiction |].
  exists b, w'. split; [reflexivity | exact Hwp].
Qed.

Lemma compress_pdf_true (w w' : World) :
  compress_pdf lib self w = (inr true, w') ->
  compress_pdf_body lib self w = (inr true, w').
Proof.
  unfold compress_pdf, try_except.
  destruct (compress_pdf_body lib self w) as [[e | b] w1]; [| trivial].
  simpl. intros Hrun. inversion Hrun.
Qed.

Lemma compress_pdf_body_ratio (w : World) :
  wp (compress_pdf_body lib self)
     (fun _ w' =>
        exists original_size compressed_size l pages,
          fs w' !! input_path self = Some original_size /\
          fs w' !! output_path self = Some compressed_size /\
          original_size <> 0%Z /\
          In (CSave pages (output_path self) 4 true true, None) (calls w') /\
          lib_save lib pages (output_path self) = Saved compressed_size /\
          log w' = l ++ [(INFO, CompressionRatio
                                  (ratio_of compressed_size original_size))])
     (fun _ _ => True) w.
Proof.
  unfold compress_pdf_body.
  do 6 (apply wp_bind; apply wp_any; [intros ? ? | intros; exact I]).
  apply wp_bind, wp_save.
  destruct (lib_save lib (out_pages w'4) (output_path self))
    as [n | e [m |]] eqn:Hsave; trivial.
  apply wp_bind, wp_getsize. simpl.
  destruct (<[output_path self:=n]> (fs w'4) !! input_path self)
    as [original_size |] eqn:Hin; [| trivial].
  apply wp_bind, wp_getsize. simpl. rewrite lookup_insert_eq.
  apply wp_bind, wp_truediv; [trivial | intros Hnz].
  repeat wp_step; trivial.
  world_simpl. exists original_size, n. eexists. exists (out_pages w'4).
  repeat split; try assumption.
  - apply lookup_insert_eq.
  - apply in_or_app. left. apply in_or_app. left.
    apply in_or_app. right. left. reflexivity.
Qed.

(** C8. When [compress_pdf] returns [True], the last record of the log is
    the compression ratio, and its value is [(1 - compressed_size /
    original_size) * 100] in the program's float arithmetic, where the two
    sizes are the sizes of the input and output files on storage when the
    call returns, that is after [save] wrote the output file (whose size is
    the one [save] produced); the original size is not zero. *)
Theorem reported_ratio_formula (w w' : World) :
  compress_pdf lib self w = (inr true, w') ->
  exists original_size compressed_size l pages,
    fs w' !! input_path self = Some original_size /\
    fs w' !! output_path self = Some compressed_size /\
    original_size <> 0%Z /\
    In (CSave pages (output_path self) 4 true true, None) (calls w') /\
    lib_save lib pages (output_path self) = Saved compressed_size /\
    log w' = l ++
      [(INFO, CompressionRatio
                (fmul (fsub (float_of_int 1)
                            (int_truediv compressed_size original_size))
                      (float_of_int 100)))].
Proof.
  intros Hrun. apply compress_pdf_true in Hrun.
  exact (wp_run _ _ _ _ _ _ (compress_pdf_body_ratio w) Hrun).
Qed.

(** *** What [compress_image] touches *)

Lemma save_params_quality (image_ext : string) :
  sp_quality (save_params self image_ext) = image_quality self.
Proof.
  unfold save_params.
  destruct (str_in (lower image_ext) ["jpg"; "jpeg"]); [reflexivity |].
  destruct (String.eqb (lower image_ext) "png"); reflexivity.
Qed.

(** [compress_image] never raises; it leaves storage, handles and the output
    pages alone, and only calls into Pillow. *)
Lemma compress_image_frame (image_bytes : bytes) (image_ext : string) (w : World) :
  wp (compress_image lib self image_bytes image_ext)
     (fun _ w' =>
        fs w' = fs w /\ open_docs w' = open_docs w /\
        out_pages w' = out_pages w /\
        exists new, calls w' = calls w ++ new /\
                    Forall (fun c => pillow_call (image_quality self) (fst c)) new)
     (fun _ _ => False) w.
Proof.
  unfold compress_image.
  repeat wp_step; world_simpl; repeat split;
    rewrite <- ?app_assoc; simpl;
    (eexists; split; [reflexivity |]);
    repeat constructor; simpl; apply save_params_quality.
Qed.

(** *** Output pages against source pages *)

Lemma page_matches_draw (i : nat) (p : SourcePage F) (o : OutPage F) (d : Drawing F) :
  page_matches i p o ->
  page_matches i p (mkOut (op_width o) (op_height o) (op_content o ++ [d])).
Proof.
  intros (Hw & Hh & Hhead). repeat split; simpl; try assumption.
  destruct (op_content o); [discriminate | exact Hhead].
Qed.

Lemma pages_match_draw (doc : SourceDoc F) (pages : list (OutPage F)) (k : nat) (d : Drawing F) :
  pages_match doc pages ->
  pages_match doc
    (alter (fun p => mkOut (op_width p) (op_height p) (op_content p ++ [d])) k pages).
Proof.
  intros [Hlen Hall]. split.
  - rewrite length_alter. exact Hlen.
  - intros i p o Hp Ho. destruct (decide (i = k)) as [-> | Hne].
    + rewrite list_lookup_alter_eq in Ho.
      destruct (pages !! k) as [o' |] eqn:Hk; simpl in Ho; [| discriminate].
      injection Ho as <-.
      apply page_matches_draw. exact (Hall k p o' Hp Hk).
    + rewrite list_lookup_alter_ne in Ho by congruence.
      exact (Hall i p o Hp Ho).
Qed.

Lemma pages_match_new_page (doc : SourceDoc F) (pages : list (OutPage F)) (k : nat) (page : SourcePage F) :
  pages_match (take k doc) pages ->
  doc !! k = Some page ->
  pages_match (take (S k) doc)
    (alter (fun p => mkOut (op_width p) (op_height p)
                       (op_content p ++ [ShownPage (rect page) (length pages)]))
           (length pages)
           (pages ++ [mkOut (Rect_width (rect page)) (Rect_height (rect page)) []])).
Proof.
  intros [Hlen Hall] Hk.
  assert (Hlt : k < length doc) by (apply lookup_lt_is_Some; eauto).
  assert (Hpages : length pages = k) by (rewrite Hlen, length_take; lia).
  rewrite (take_S_r _ _ _ Hk). split.
  - rewrite length_alter, !length_app, length_take. simpl. lia.
  - intros i p o Hp Ho. destruct (decide (i = k)) as [-> | Hne].
    + rewrite lookup_app_r in Hp by (rewrite length_take; lia).
      rewrite length_take in Hp. replace (k - k `min` length doc) with 0 in Hp by lia.
      simpl in Hp. injection Hp as <-.
      rewrite Hpages in Ho. rewrite list_lookup_alter_eq in Ho.
      rewrite lookup_app_r in Ho by lia.
      replace (k - length pages) with 0 in Ho by lia.
      simpl in Ho. injection Ho as <-.
      repeat split.
    + assert (Hi : i < k).
      { apply lookup_lt_Some in Hp. rewrite length_app, length_take in Hp.
        simpl in Hp. lia. }
      rewrite lookup_app_l in Hp by (rewrite length_take; lia).
      rewrite list_lookup_alter_ne in Ho by lia.
      rewrite lookup_app_l in Ho by lia.
      exact (Hall i p o Hp Ho).
Qed.

Lemma seq_split (n : nat) (done : list nat) (x : nat) (rest : list nat) :
  seq 0 n = done ++ x :: rest -> x = length done /\ x < n.
Proof.
  intros Hseq.
  assert (Hlen : n = length done + S (length rest)).
  { rewrite <- (length_seq n 0), Hseq, length_app. reflexivity. }
  assert (Hx : seq 0 n !! length done = Some x).
  { rewrite Hseq. apply list_lookup_middle. reflexivity. }
  rewrite lookup_seq_lt in Hx by lia. injection Hx as <-. lia.
Qed.

(** *** A property of every call of a run

    [P] holds of every call that is not a [save], provided the encodes carry
    the configured quality; what [P] asks of a [save] is left to the
    caller. *)

Section Traversal.

Variable P : Call F * option exn -> Prop.
Hypothesis P_benign : forall c o, benign (image_quality self) c -> P (c, o).

Lemma Forall_pillow (new : list (Call F * option exn)) :
  Forall (fun c => pillow_call (image_quality self) (fst c)) new -> Forall P new.
Proof.
  intros Hnew. eapply Forall_impl; [exact Hnew |].
  intros [c o] Hc. apply P_benign.
  destruct c; simpl in *; trivial; contradiction.
Qed.

Lemma process_image_keeps (doc : SourceDoc F) (page_num output_page : nat)
    (img : ImgItem) (w : World) :
  pages_match doc (out_pages w) -> Forall P (calls w) ->
  wp (process_image lib self page_num output_page img)
     (fun _ w' => pages_match doc (out_pages w') /\ Forall P (calls w'))
     (fun _ w' => Forall P (calls w')) w.
Proof.
  intros Hpages Hcalls. unfold process_image.
  do 3 wp_step.
  destruct (lib_extract_image lib (img_xref img)) as [e | o]; world_simpl.
  - apply Forall_app. split; [assumption |].
    repeat constructor. apply P_benign. exact I.
  - assert (Hcalls1 : Forall P (calls w ++ [(CExtractImage (img_xref img), None)])).
    { apply Forall_app. split; [assumption |].
      repeat constructor. apply P_benign. exact I. }
    destruct o as [d |]; [| apply wp_ret; split; assumption].
    apply wp_bind.
    eapply wp_mono; [apply compress_image_frame | | intros ? ? []].
    intros compressed w1 (_ & _ & Hout & new & Hnew & Hpil). world_simpl.
    assert (Hcalls2 : Forall P (calls w1)).
    { rewrite Hnew. apply Forall_app. split; [assumption |].
      apply Forall_pillow. exact Hpil. }
    destruct compressed as [stream |];
      [| apply wp_ret; split; [rewrite Hout |]; assumption].
    repeat wp_step; world_simpl;
      repeat match goal with
             | |- _ /\ _ => split
             | |- pages_match _ (alter _ _ _) => apply pages_match_draw
             | |- pages_match _ (out_pages w1) => rewrite Hout; assumption
             | |- Forall P (_ ++ _) => apply Forall_app; split; [| repeat constructor]
             | |- Forall P (calls w1) => assumption
             | |- P _ => apply P_benign; exact I
             end.
Qed.

Lemma process_page_keeps (doc : SourceDoc F) (total_pages k : nat) (w : World) :
  k < length doc ->
  pages_match (take k doc) (out_pages w) -> Forall P (calls w) ->
  wp (process_page lib self doc total_pages k)
     (fun _ w' => pages_match (take (S k) doc) (out_pages w') /\ Forall P (calls w'))
     (fun _ w' => Forall P (calls w')) w.
Proof.
  intros Hk Hpages Hcalls. unfold process_page.
  destruct (lookup_lt_is_Some_2 doc k Hk) as [page Hpage].
  apply wp_bind, wp_logger_info.
  apply wp_bind, wp_getitem. rewrite Hpage.
  apply wp_bind, wp_new_page.
  apply wp_bind. unfold show_pdf_page.
  apply wp_bind, wp_call_unit.
  assert (Hnew : forall o, P (CNewPage (Rect_width (rect page)) (Rect_height (rect page)), o))
    by (intros o; apply P_benign; exact I).
  assert (Hshow : forall i o, P (CShowPdfPage i (rect page) k, o))
    by (intros i o; apply P_benign; exact I).
  destruct (lib_show_pdf_page lib (rect page) k) as [e |]; world_simpl.
  - repeat (apply Forall_app; split); trivial; repeat constructor; trivial.
  - apply wp_modify. world_simpl.
    assert (Hlen : length (out_pages w) = k).
    { destruct Hpages as [Hlen _]. rewrite Hlen, length_take. lia. }
    assert (Hpages' :
      pages_match (take (S k) doc)
        (alter (fun p => mkOut (op_width p) (op_height p)
                           (op_content p ++ [ShownPage (rect page) k]))
               (length (out_pages w))
               (out_pages w ++
                  [mkOut (Rect_width (rect page)) (Rect_height (rect page)) []]))).
    { pose proof (pages_match_new_page doc (out_pages w) k page Hpages Hpage) as Hm.
      rewrite Hlen in Hm |- *. exact Hm. }
    assert (Hcalls' :
      Forall P ((calls w ++
                   [(CNewPage (Rect_width (rect page)) (Rect_height (rect page)), None)]) ++
                [(CShowPdfPage (length (out_pages w)) (rect page) k, None)])).
    { repeat (apply Forall_app; split); trivial; repeat constructor; trivial. }
    destruct (get_images page) as [| img images] eqn:Himages.
    + apply wp_ret. split; assumption.
    + apply (wp_for_each_const (img :: images) _
               (fun w' => pages_match (take (S k) doc) (out_pages w') /\
                          Forall P (calls w'))).
      * intros x w' _ [Hp Hc]. apply process_image_keeps; assumption.
      * split; assumption.
Qed.

Hypothesis P_save : forall doc pages path o,
  lib_fitz_open lib (input_path self) = inr doc ->
  pages_match doc pages ->
  P (CSave pages path 4 true true, o).

Lemma pages_loop_keeps (doc : SourceDoc F) (w : World) :
  out_pages w = [] -> Forall P (calls w) ->
  wp (for_each (seq 0 (length doc)) (process_page lib self doc (length doc)))
     (fun _ w' => pages_match doc (out_pages w') /\ Forall P (calls w'))
     (fun _ w' => Forall P (calls w')) w.
Proof.
  intros Hempty Hcalls.
  apply wp_mono with
    (Q := fun _ w' =>
            pages_match (take (length (seq 0 (length doc))) doc) (out_pages w') /\
            Forall P (calls w'))
    (E := fun _ w' => Forall P (calls w')).
  - apply (wp_for_each _ _
             (fun done w' => pages_match (take (length done) doc) (out_pages w') /\
                             Forall P (calls w'))).
    + intros done k rest w' Hseq [Hp Hc].
      destruct (seq_split _ _ _ _ Hseq) as [-> Hlt].
      rewrite length_app. simpl. rewrite Nat.add_1_r.
      apply process_page_keeps; assumption.
    + simpl. rewrite Hempty. split; [| assumption].
      split; [reflexivity |].
      intros i p o Hp. discriminate.
  - intros u w' [Hp Hc]. rewrite length_seq, firstn_all in Hp. split; assumption.
  - auto.
Qed.

Lemma compress_pdf_body_keeps (w : World) :
  Forall P (calls w) ->
  wp (compress_pdf_body lib self)
     (fun _ w' => Forall P (calls w')) (fun _ w' => Forall P (calls w')) w.
Proof.
  intros Hcalls. unfold compress_pdf_body.
  apply wp_bind, wp_path_exists. apply wp_bind.
  destruct (bool_decide _); [apply wp_ret | apply wp_raise; assumption].
  apply wp_bind, wp_logger_info.
  apply wp_bind. unfold fitz_open. apply wp_bind, wp_call_value.
  destruct (lib_fitz_open lib (input_path self)) as [e | doc] eqn:Hopen; world_simpl.
  { apply Forall_app. split; [assumption | repeat constructor].
    apply P_benign. exact I. }
  apply wp_bind, wp_modify, wp_ret.
  apply wp_bind. unfold fitz_new. apply wp_bind, wp_call_unit, wp_modify.
  apply wp_bind. world_simpl.
  apply wp_mono with
    (Q := fun _ w' => pages_match doc (out_pages w') /\ Forall P (calls w'))
    (E := fun _ w' => Forall P (calls w')).
  - apply (pages_loop_keeps doc); world_simpl; [reflexivity |].
    repeat (apply Forall_app; split); try assumption;
      repeat constructor; apply P_benign; exact I.
  - intros u w1 [Hpages Hcalls1].
    apply wp_bind, wp_save.
    assert (Hsaved : forall o,
      Forall P (calls w1 ++
        [(CSave (out_pages w1) (output_path self) 4 true true, o)])).
    { intros o. apply Forall_app. split; [assumption | repeat constructor].
      apply (P_save doc); [reflexivity | assumption]. }
    destruct (lib_save lib (out_pages w1) (output_path self)) as [n | e [m |]];
      world_simpl; try apply Hsaved.
    repeat wp_step; world_simpl; try apply Hsaved.
    apply Forall_app. split; [apply Forall_app; split; [apply Hsaved |] |];
      repeat constructor; apply P_benign; exact I.
  - auto.
Qed.

Lemma compress_pdf_keeps (w : World) :
  Forall P (calls w) ->
  wp (compress_pdf lib self)
     (fun _ w' => Forall P (calls w')) (fun _ _ => False) w.
Proof.
  intros Hcalls. unfold compress_pdf. apply wp_try_except.
  eapply wp_mono; [apply compress_pdf_body_keeps; assumption | auto |].
  intros e w' Hc. repeat wp_step. world_simpl. assumption.
Qed.

End Traversal.

(** *** The calls of one [compress_image] *)

Lemma calls_since_app (w w' : World) (new : list (Call F * option exn)) :
  calls w' = calls w ++ new -> calls_since w w' = new.
Proof.
  intros Hnew. unfold calls_since. rewrite Hnew. apply drop_app_length.
Qed.

(** Every encode of a [compress_image] call uses [save_params]; the call
    returns the encoder's bytes when the encode succeeds and [None], with the
    exception logged, when any Pillow call raises. *)
Lemma compress_image_spec (image_bytes : bytes) (image_ext : string) (w : World) :
  wp (compress_image lib self image_bytes image_ext)
     (fun r w' =>
        exists new, calls w' = calls w ++ new /\
          (forall im p o, In (CImageSave im p, o) new ->
             p = save_params self image_ext /\
             match o with
             | None => exists b, lib_Image_save lib im p = inr b /\
                                 r = Some b /\ log w' = log w
             | Some e => lib_Image_save lib im p = inl e /\ r = None /\
                         log w' = log w ++ [(ERROR, ErrorCompressingImage e)]
             end) /\
          (forall c e, In (c, Some e) new ->
             r = None /\ log w' = log w ++ [(ERROR, ErrorCompressingImage e)]) /\
          (r = None -> exists c e, In (c, Some e) new) /\
          (forall b, r = Some b ->
             exists im, In (CImageSave im (save_params self image_ext), None) new))
     (fun _ _ => False) w.
Proof.
  unfold compress_image.
  repeat wp_step; world_simpl; rewrite <- ?app_assoc; simpl;
    (eexists; split; [reflexivity |]);
    (split; [| split; [| split]]).
  all: try (intros ? ? ? Hin; in_cases Hin;
            (split; [reflexivity | simpl; eauto 6]); fail).
  all: try (intros ? ? Hin; in_cases Hin; split; reflexivity).
  all: try (intros Hr; try discriminate; do 2 eexists; simpl; eauto 10; fail).
  all: try (intros ? Hr; try discriminate; eexists; simpl; eauto 10; fail).
Qed.

(** *** Claims on whole runs *)

Lemma benign_save_matches (c : Call F) (o : option exn) :
  benign (image_quality self) c -> save_matches_source lib self (c, o).
Proof.
  unfold save_matches_source. destruct c; simpl; trivial; contradiction.
Qed.

(** C1. In a run of [compress_pdf] from a fresh world, the pages handed to a
    [save] that succeeds are as many as the pages of the source document,
    and page [i] of the output has the width and the height of source page
    [i] and starts with the reproduction of source page [i]: same count,
    same order, same geometry. *)
Theorem saved_pages_match_source (files : gmap string Z)
    (pages : list (OutPage F)) (path : string) (garbage : Z) (deflate clean : bool) :
  In (CSave pages path garbage deflate clean, None)
     (calls (snd (compress_pdf lib self (initial_world files)))) ->
  exists doc,
    lib_fitz_open lib (input_path self) = inr doc /\
    length pages = length doc /\
    forall i p, doc !! i = Some p ->
      exists o, pages !! i = Some o /\
                op_width o = Rect_width (rect p) /\
                op_height o = Rect_height (rect p) /\
                head (op_content o) = Some (ShownPage (rect p) i).
Proof.
  intros Hin.
  pose proof (compress_pdf_keeps (save_matches_source lib self)
                benign_save_matches) as Hkeeps.
  assert (Hall : Forall (save_matches_source lib self)
                   (calls (snd (compress_pdf lib self (initial_world files))))).
  { specialize (Hkeeps
      (fun doc pages' path' o Hopen Hmatch =>
         ex_intro _ doc (conj Hopen Hmatch))
      (initial_world files) (List.Forall_nil _)).
    unfold wp in Hkeeps.
    destruct (compress_pdf lib self (initial_world files)) as [[e | b] w'];
      [contradiction | exact Hkeeps]. }
  rewrite List.Forall_forall in Hall. apply Hall in Hin.
  destruct Hin as (doc & Hopen & Hlen & Hmatch).
  exists doc. repeat split; try assumption.
  intros i p Hp.
  destruct (lookup_lt_is_Some_2 pages i) as [o Ho].
  { rewrite Hlen. apply lookup_lt_is_Some. eauto. }
  exists o. split; [exact Ho |]. exact (Hmatch i p o Hp Ho).
Qed.

(** *** Claims on [compress_image] *)

Lemma str_in_two (x a b : string) :
  str_in x [a; b] = true <-> x = a \/ x = b.
Proof.
  unfold str_in. simpl. rewrite orb_false_r, orb_true_iff, !String.eqb_eq.
  reflexivity.
Qed.

(** When the image decodes and the flattening steps do not raise,
    [compress_image] makes the preparation calls and then exactly one encode,
    of the image as decoded or flattened, with [save_params]; what the
    encoder answers decides the result. *)
Lemma compress_image_encodes (image_bytes : bytes) (image_ext : string)
    (hdr : string * (Z * Z)) (w : World) :
  lib_Image_open lib image_bytes = inr hdr ->
  let image := Opened (fst hdr) (snd hdr) image_bytes in
  (str_in (fst hdr) ["RGBA"; "LA"] = true ->
   lib_split lib image = None /\
   lib_paste lib (New "RGB" (snd hdr) (255, 255, 255)%Z) image
             (Band image (-1)) = None) ->
  wp (compress_image lib self image_bytes image_ext)
     (fun r w' =>
        fs w' = fs w /\ open_docs w' = open_docs w /\
        out_pages w' = out_pages w /\
        exists o,
          calls w' =
            calls w ++ preparation image_bytes image ++
            [(CImageSave (encoder_input image) (save_params self image_ext), o)] /\
          match lib_Image_save lib (encoder_input image)
                               (save_params self image_ext) with
          | inr b => o = None /\ r = Some b /\ log w' = log w
          | inl e => o = Some e /\ r = None /\
                     log w' = log w ++ [(ERROR, ErrorCompressingImage e)]
          end)
     (fun _ _ => False) w.
Proof.
  intros Hopen image Hflat. subst image.
  unfold compress_image, encoder_input, preparation, flattened. simpl mode. simpl size.
  destruct (str_in (fst hdr) ["RGBA"; "LA"]) eqn:Hmode.
  - destruct (Hflat eq_refl) as [Hsplit Hpaste].
    apply wp_try_except, wp_bind. unfold Image_open.
    apply wp_bind, wp_call_value. rewrite Hopen. apply wp_ret.
    apply wp_bind. unfold normalise_mode. simpl mode. rewrite Hmode.
    apply wp_bind. unfold split_last. apply wp_bind, wp_call_unit.
    rewrite Hsplit. apply wp_ret.
    unfold paste. apply wp_bind, wp_call_unit. simpl size.
    rewrite Hpaste. apply wp_ret.
    apply wp_bind. unfold Image_save. apply wp_call_value.
    destruct (lib_Image_save lib _ _) as [e | b];
      repeat wp_step; world_simpl; repeat split; trivial;
      eexists; (split; [rewrite <- !app_assoc; reflexivity | auto]).
  - apply wp_try_except, wp_bind. unfold Image_open.
    apply wp_bind, wp_call_value. rewrite Hopen. apply wp_ret.
    apply wp_bind. unfold normalise_mode. simpl mode. rewrite Hmode.
    apply wp_ret.
    apply wp_bind. unfold Image_save. apply wp_call_value.
    destruct (lib_Image_save lib _ _) as [e | b];
      repeat wp_step; world_simpl; repeat split; trivial;
      eexists; (split; [rewrite <- !app_assoc; reflexivity | auto]).
Qed.

(** C9. An image that decodes (and, when flattened, splits and pastes without
    an error) is encoded exactly once, after the preparation calls, and the
    arguments of that encode are selected by the lower-cased format hint:
    ["jpg"]/["jpeg"] give JPEG with [optimize=True]; ["png"] gives PNG with
    [optimize=True]; anything else gives the upper-cased hint as format and
    no [optimize]; the configured quality is passed in all three.  When the
    codec answers, its bytes are the result; when it raises, the result is
    [None], the error is logged and the output pages are untouched: a
    failure for that image only. *)
Theorem encoding_selected_by_format_hint (image_bytes : bytes) (image_ext : string)
    (hdr : string * (Z * Z)) (w : World) :
  lib_Image_open lib image_bytes = inr hdr ->
  let image := Opened (fst hdr) (snd hdr) image_bytes in
  (str_in (fst hdr) ["RGBA"; "LA"] = true ->
   lib_split lib image = None /\
   lib_paste lib (New "RGB" (snd hdr) (255, 255, 255)%Z) image
             (Band image (-1)) = None) ->
  let run := compress_image lib self image_bytes image_ext w in
  exists p o,
    calls_since w (snd run) =
      preparation image_bytes image ++ [(CImageSave (encoder_input image) p, o)] /\
    sp_quality p = image_quality self /\
    (lower image_ext = "jpg" \/ lower image_ext = "jpeg" ->
       sp_format p = "JPEG" /\ sp_optimize p = Some true) /\
    (lower image_ext = "png" ->
       sp_format p = "PNG" /\ sp_optimize p = Some true) /\
    (lower image_ext <> "jpg" -> lower image_ext <> "jpeg" ->
     lower image_ext <> "png" ->
       sp_format p = upper image_ext /\ sp_optimize p = None) /\
    match lib_Image_save lib (encoder_input image) p with
    | inr b => o = None /\ fst run = inr (Some b) /\ log (snd run) = log w
    | inl e => o = Some e /\ fst run = inr None /\
               log (snd run) = log w ++ [(ERROR, ErrorCompressingImage e)] /\
               out_pages (snd run) = out_pages w
    end.
Proof.
  intros Hopen image Hflat run.
  pose proof (compress_image_encodes image_bytes image_ext hdr w Hopen Hflat)
    as Hwp.
  unfold wp in Hwp. subst run.
  destruct (compress_image lib self image_bytes image_ext w) as [[e | r] w'];
    [contradiction |].
  destruct Hwp as (_ & _ & Hout & o & Hcalls & Hanswer).
  exists (save_params self image_ext), o. cbn [fst snd].
  split; [apply calls_since_app; exact Hcalls |].
  split; [apply save_params_quality |].
  split; [| split; [| split]].
  - intros Hjpeg. apply str_in_two in Hjpeg.
    unfold save_params. rewrite Hjpeg. split; reflexivity.
  - intros Hpng. unfold save_params. rewrite Hpng. split; reflexivity.
  - intros Hjpg Hjpeg Hpng. unfold save_params.
    destruct (str_in (lower image_ext) ["jpg"; "jpeg"]) eqn:Hin.
    + apply str_in_two in Hin. tauto.
    + apply String.eqb_neq in Hpng. rewrite Hpng. split; reflexivity.
  - fold image in Hanswer.
    destruct (lib_Image_save lib (encoder_input image) (save_params self image_ext))
      as [e | b].
    + destruct Hanswer as (-> & -> & Hlog). auto.
    + destruct Hanswer as (-> & -> & Hlog). auto.
Qed.

(** A failing Pillow call makes [compress_image] return [None] and log. *)
Lemma compress_image_fails (image_bytes : bytes) (image_ext : string) (e : exn) (w : World) :
  pillow_fails lib self image_bytes image_ext e ->
  wp (compress_image lib self image_bytes image_ext)
     (fun r w' => r = None /\
                  log w' = log w ++ [(ERROR, ErrorCompressingImage e)])
     (fun _ _ => False) w.
Proof.
  intros Hfail. unfold compress_image.
  destruct Hfail;
    repeat match goal with x := _ |- _ => subst x end;
    repeat wp_step; world_simpl; simpl in *; simplify_eq;
    split; congruence.
Qed.

(** *** One failing image inside a page *)

Lemma process_image_absorbs (page_num output_page : nat) (img : ImgItem)
    (d : BaseImage) (e : exn) (w : World) :
  lib_extract_image lib (img_xref img) = inr (Some d) ->
  pillow_fails lib self (bi_image d) (bi_ext d) e ->
  wp (process_image lib self page_num output_page img)
     (fun _ w' =>
        out_pages w' = out_pages w /\ fs w' = fs w /\
        open_docs w' = open_docs w /\
        log w' = log w ++ [(ERROR, ErrorCompressingImage e)] /\
        no_insert (calls_since w w'))
     (fun _ _ => False) w.
Proof.
  intros Hextract Hfail. unfold process_image.
  apply wp_bind. unfold extract_image. apply wp_call_value. rewrite Hextract.
  apply wp_bind.
  eapply wp_mono;
    [exact (wp_conj _ _ _ _ _ _
              (compress_image_fails _ _ e _ Hfail)
              (compress_image_frame (bi_image d) (bi_ext d) _)) |
     | intros ? ? [[] _]].
  intros r w' [[-> Hlog] (Hfs & Hopen & Hout & new & Hnew & Hpil)].
  world_simpl. apply wp_ret. repeat split; try assumption.
  rewrite <- app_assoc in Hnew. rewrite (calls_since_app _ _ _ Hnew).
  intros k r stream o [Hin | Hin]; [discriminate |].
  rewrite List.Forall_forall in Hpil. exact (Hpil _ Hin).
Qed.

(** C6, as the code has it.  An image whose mode is ["RGBA"] or ["LA"] is
    pasted, through its last band as mask, onto a new white RGB image of the
    same size, and that RGB image is what the encoder gets; an image of any
    other mode is handed to the encoder as decoded. *)
Theorem flattening_selected_by_mode (image_bytes : bytes) (image_ext : string)
    (hdr : string * (Z * Z)) (w : World) :
  lib_Image_open lib image_bytes = inr hdr ->
  let image := Opened (fst hdr) (snd hdr) image_bytes in
  let background := New "RGB" (snd hdr) (255, 255, 255)%Z in
  let mask := Band image (-1) in
  let run := compress_image lib self image_bytes image_ext w in
  (fst hdr = "RGBA" \/ fst hdr = "LA" ->
   lib_split lib image = None -> lib_paste lib background image mask = None ->
   mode (Pasted background image mask) = "RGB" /\
   exists o,
     calls_since w (snd run) =
       [(CImageOpen image_bytes, None); (CSplit image, None);
        (CPaste background image mask, None);
        (CImageSave (Pasted background image mask)
                    (save_params self image_ext), o)]) /\
  (fst hdr <> "RGBA" -> fst hdr <> "LA" ->
   exists o,
     calls_since w (snd run) =
       [(CImageOpen image_bytes, None);
        (CImageSave image (save_params self image_ext), o)]).
Proof.
  intros Hopen image background mask run.
  assert (Hwp :
    wp (compress_image lib self image_bytes image_ext)
       (fun _ w' =>
          (str_in (fst hdr) ["RGBA"; "LA"] = true ->
           lib_split lib image = None ->
           lib_paste lib background image mask = None ->
           exists o,
             calls w' = calls w ++
               [(CImageOpen image_bytes, None); (CSplit image, None);
                (CPaste background image mask, None);
                (CImageSave (Pasted background image mask)
                            (save_params self image_ext), o)]) /\
          (str_in (fst hdr) ["RGBA"; "LA"] = false ->
           exists o,
             calls w' = calls w ++
               [(CImageOpen image_bytes, None);
                (CImageSave image (save_params self image_ext), o)]))
       (fun _ _ => False) w).
  { subst image background mask. unfold compress_image.
    repeat wp_step; world_simpl; simpl in *; simplify_eq;
      (split; intros; simplify_eq; try congruence;
       rewrite <- ?app_assoc; simpl; eauto). }
  unfold wp in Hwp. subst run.
  destruct (compress_image lib self image_bytes image_ext w) as [[e | res] w'];
    [contradiction |].
  destruct Hwp as [Halpha Hplain]. cbn [snd]. split.
  - intros Hmode Hsplit Hpaste. split; [reflexivity |].
    apply str_in_two in Hmode.
    destruct (Halpha Hmode Hsplit Hpaste) as [o Hcalls].
    exists o. apply calls_since_app. exact Hcalls.
  - intros Hrgba Hla.
    destruct Hplain as [o Hcalls].
    { destruct (str_in (fst hdr) ["RGBA"; "LA"]) eqn:Hin; [| reflexivity].
      apply str_in_two in Hin. tauto. }
    exists o. apply calls_since_app. exact Hcalls.
Qed.

End Claims.


(** ** Claims on the constructor *)

Lemma benign_encodes_with {F : Type} (q : Z) (c : Call F) (o : option exn) :
  benign q c -> encodes_with q (c, o).
Proof.
  unfold encodes_with. destruct c; simpl; trivial.
Qed.

(** C10. Whatever integer is given as [image_quality], in or out of 1..100,
    the constructor stores it unchanged and nothing checks or clamps it: an
    image that decodes reaches the encoder after the preparation calls only,
    and that encode carries exactly the given value, as does every encode of
    a run of [compress_pdf].  If the codec rejects the value, the rejection
    is the encoder's exception: [compress_image] returns [None] with it
    logged and raises nothing. *)
Theorem quality_passed_verbatim {F : Type} `{PyFloat F} {casing : PyStr} (lib : Library F)
    (input_path output_path : string) (q : Z) (files : gmap string Z)
    (image_bytes : bytes) (image_ext : string) (hdr : string * (Z * Z))
    (w : World F) :
  let self := init input_path output_path q in
  let image := Opened (fst hdr) (snd hdr) image_bytes in
  lib_Image_open lib image_bytes = inr hdr ->
  (str_in (fst hdr) ["RGBA"; "LA"] = true ->
   lib_split lib image = None /\
   lib_paste lib (New "RGB" (snd hdr) (255, 255, 255)%Z) image
             (Band image (-1)) = None) ->
  let run := compress_image lib self image_bytes image_ext w in
  image_quality self = q /\
  (exists p o,
     calls_since w (snd run) =
       preparation image_bytes image ++ [(CImageSave (encoder_input image) p, o)] /\
     sp_quality p = q /\
     match lib_Image_save lib (encoder_input image) p with
     | inr b => o = None /\ fst run = inr (Some b)
     | inl e => o = Some e /\ fst run = inr None /\
                log (snd run) = log w ++ [(ERROR, ErrorCompressingImage e)]
     end) /\
  (forall im p o,
     In (CImageSave im p, o)
        (calls (snd (compress_pdf lib self (initial_world files)))) ->
     sp_quality p = q).
Proof.
  intros self image Hopen Hflat run. split; [reflexivity | split].
  - pose proof (compress_image_encodes lib self image_bytes image_ext hdr w
                  Hopen Hflat) as Hwp.
    unfold wp in Hwp. subst run.
    destruct (compress_image lib self image_bytes image_ext w) as [[e | r] w'];
      [contradiction |].
    destruct Hwp as (_ & _ & _ & o & Hcalls & Hanswer).
    exists (save_params self image_ext), o. cbn [fst snd].
    split; [apply calls_since_app; exact Hcalls |].
    split; [apply save_params_quality |].
    fold image in Hanswer.
    destruct (lib_Image_save lib (encoder_input image) (save_params self image_ext))
      as [e | b].
    + destruct Hanswer as (-> & -> & Hlog). auto.
    + destruct Hanswer as (-> & -> & _). auto.
  - intros im p o Hin.
    pose proof (compress_pdf_keeps lib self (encodes_with q)
                  (benign_encodes_with q)
                  (fun _ _ _ _ _ _ => I)
                  (initial_world files) (List.Forall_nil _)) as Hwp.
    unfold wp in Hwp.
    destruct (compress_pdf lib self (initial_world files)) as [[e | b] w'];
      [contradiction |].
    rewrite List.Forall_forall in Hwp. exact (Hwp _ Hin).
Qed.

(** ** Concrete runs of the claims *)

Lemma missing_input_fails_before_opening_witness :
  fs Demo.start !! "missing.pdf" = None /\
  exists w',
    compress_pdf Demo.library (init "missing.pdf" "out.pdf" 50) Demo.start
      = (inr false, w') /\
    fs w' !! "out.pdf" = None /\
    calls w' = [].
Proof.
  assert (Hmiss : fs Demo.start !! "missing.pdf" = None)
    by (vm_compute; reflexivity).
  split; [exact Hmiss |].
  destruct (missing_input_fails_before_opening Demo.library
              (init "missing.pdf" "out.pdf" 50) Demo.start Hmiss)
    as (w' & Hrun & Hcalls & _ & Hfs & _).
  exists w'. split; [exact Hrun |]. split.
  - rewrite Hfs. vm_compute. reflexivity.
  - rewrite Hcalls. reflexivity.
Defined.

Lemma reported_ratio_formula_witness :
  exists original_size compressed_size l pages,
    fs (snd (compress_pdf Demo.library Demo.compressor Demo.start)) !! "in.pdf"
      = Some original_size /\
    fs (snd (compress_pdf Demo.library Demo.compressor Demo.start)) !! "out.pdf"
      = Some compressed_size /\
    original_size <> 0%Z /\
    In (CSave pages "out.pdf" 4 true true, None)
       (calls (snd (compress_pdf Demo.library Demo.compressor Demo.start))) /\
    lib_save Demo.library pages "out.pdf" = Saved compressed_size /\
    log (snd (compress_pdf Demo.library Demo.compressor Demo.start)) =
      l ++ [(INFO, CompressionRatio
                     (fmul (fsub (float_of_int 1)
                                 (int_truediv compressed_size original_size))
                           (float_of_int 100)))].
Proof.
  apply (reported_ratio_formula Demo.library Demo.compressor Demo.start).
  vm_compute. reflexivity.
Defined.

Lemma saved_pages_match_source_witness :
  exists doc,
    lib_fitz_open Demo.library "in.pdf" = inr doc /\
    length Demo.saved_pages = length doc /\
    forall i p, doc !! i = Some p ->
      exists o, Demo.saved_pages !! i = Some o /\
                op_width o = Rect_width (rect p) /\
                op_height o = Rect_height (rect p) /\
                head (op_content o) = Some (ShownPage (rect p) i).
Proof.
  apply (saved_pages_match_source Demo.library Demo.compressor Demo.files
           Demo.saved_pages "out.pdf" 4 true true).
  vm_compute. do 11 right. left. reflexivity.
Defined.

Lemma encoding_selected_by_format_hint_witness :
  let image := Opened "RGB" (100, 50)%Z Demo.jpeg_data in
  let run := compress_image Demo.library Demo.compressor Demo.jpeg_data "JPG"
               Demo.start in
  exists p o,
    calls_since Demo.start (snd run) =
      preparation Demo.jpeg_data image ++ [(CImageSave (encoder_input image) p, o)] /\
    sp_quality p = 50%Z /\
    (lower "JPG" = "jpg" \/ lower "JPG" = "jpeg" ->
       sp_format p = "JPEG" /\ sp_optimize p = Some true) /\
    (lower "JPG" = "png" ->
       sp_format p = "PNG" /\ sp_optimize p = Some true) /\
    (lower "JPG" <> "jpg" -> lower "JPG" <> "jpeg" -> lower "JPG" <> "png" ->
       sp_format p = upper "JPG" /\ sp_optimize p = None) /\
    match lib_Image_save Demo.library (encoder_input image) p with
    | inr b => o = None /\ fst run = inr (Some b) /\ log (snd run) = log Demo.start
    | inl e => o = Some e /\ fst run = inr None /\
               log (snd run) =
                 log Demo.start ++ [(ERROR, ErrorCompressingImage e)] /\
               out_pages (snd run) = out_pages Demo.start
    end.
Proof.
  apply (encoding_selected_by_format_hint Demo.library Demo.compressor
           Demo.jpeg_data "JPG" ("RGB", (100, 50)%Z) Demo.start).
  - reflexivity.
  - discriminate.
Defined.

Lemma quality_passed_verbatim_witness :
  let self := init "in.pdf" "out.pdf" 1000 in
  let image := Opened "RGB" (100, 50)%Z Demo.jpeg_data in
  let run := compress_image Demo.strict_codec self Demo.jpeg_data "webp"
               Demo.start in
  image_quality self = 1000%Z /\
  (exists p o,
     calls_since Demo.start (snd run) =
       preparation Demo.jpeg_data image ++ [(CImageSave (encoder_input image) p, o)] /\
     sp_quality p = 1000%Z /\
     match lib_Image_save Demo.strict_codec (encoder_input image) p with
     | inr b => o = None /\ fst run = inr (Some b)
     | inl e => o = Some e /\ fst run = inr None /\
                log (snd run) = log Demo.start ++ [(ERROR, ErrorCompressingImage e)]
     end) /\
  (forall im p o,
     In (CImageSave im p, o)
        (calls (snd (compress_pdf Demo.strict_codec self
                       (initial_world Demo.files)))) ->
     sp_quality p = 1000%Z).
Proof.
  apply (quality_passed_verbatim Demo.strict_codec "in.pdf" "out.pdf" 1000
           Demo.files Demo.jpeg_data "webp" ("RGB", (100, 50)%Z) Demo.start).
  - reflexivity.
  - discriminate.
Defined.

Lemma flattening_selected_by_mode_witness :
  exists o,
    calls_since Demo.start
      (snd (compress_image Demo.rgba_image Demo.compressor Demo.jpeg_data "png"
              Demo.start)) =
    [(CImageOpen Demo.jpeg_data, None);
     (CSplit (Opened "RGBA" (100, 50)%Z Demo.jpeg_data), None);
     (CPaste (New "RGB" (100, 50)%Z (255, 255, 255)%Z)
             (Opened "RGBA" (100, 50)%Z Demo.jpeg_data)
             (Band (Opened "RGBA" (100, 50)%Z Demo.jpeg_data) (-1)), None);
     (CImageSave
        (Pasted (New "RGB" (100, 50)%Z (255, 255, 255)%Z)
                (Opened "RGBA" (100, 50)%Z Demo.jpeg_data)
                (Band (Opened "RGBA" (100, 50)%Z Demo.jpeg_data) (-1)))
        (save_params Demo.compressor "png"), o)].
Proof.
  apply (flattening_selected_by_mode Demo.rgba_image Demo.compressor
           Demo.jpeg_data "png" ("RGBA", (100, 50)%Z) Demo.start eq_refl).
  - left. reflexivity.
  - reflexivity.
  - reflexivity.
Defined.

(** ** Where the code departs from the claims *)

(** C6 as stated fails: ["PA"] carries alpha, yet the decoded image goes to
    the encoder as it is, with no paste onto a white background. *)
Lemma pa_image_is_not_flattened :
  carries_alpha "PA" = true /\
  calls (snd (compress_image Demo.pa_image Demo.compressor Demo.jpeg_data "png"
                Demo.start)) =
    [(CImageOpen Demo.jpeg_data, None);
     (CImageSave (Opened "PA" (100, 50)%Z Demo.jpeg_data)
                 (mkSave "PNG" 50 (Some true)), None)].
Proof.
  split; vm_compute; reflexivity.
Qed.

(** C7: the guard [if image_rect:] skips the all-zero rectangle and no other.
    A rectangle of width zero encloses no area and is empty for PyMuPDF, yet
    it is truthy: [insert_image] is called with it and raises, and the
    exception ends the run: [compress_pdf] returns [False], [save] is never
    called and no output file exists.  With the all-zero rectangle the
    insertion is skipped and the run returns [True]. *)
Theorem zero_area_rect_is_not_skipped :
  let r := Demo.r 10 10 10 50 in
  let run := compress_pdf Demo.zero_width_bbox Demo.compressor Demo.start in
  let run0 := compress_pdf Demo.null_bbox Demo.compressor Demo.start in
  (zero_area r = true /\ Rect_is_empty r = true /\ Rect_bool r = true) /\
  (In (CInsertImage 0 r Demo.encoded, Some Demo.empty_rect) (calls (snd run)) /\
   fst run = inr false /\
   List.filter is_save (calls (snd run)) = [] /\
   fs (snd run) !! "out.pdf" = None /\
   last (log (snd run)) = Some (ERROR, ErrorCompressingPDF Demo.empty_rect)) /\
  (Rect_bool (Demo.r 0 0 0 0) = false /\
   fst run0 = inr true /\
   List.filter is_insert (calls (snd run0)) = []).
Proof.
  intros r run run0. split; [| split].
  - split; [| split]; vm_compute; reflexivity.
  - split; [vm_compute; do 8 right; left; reflexivity |].
    split; [| split; [| split]]; vm_compute; reflexivity.
  - split; [vm_compute; reflexivity |].
    split; vm_compute; reflexivity.
Qed.

(** C2: the handles are closed only at the end of the [try] block.  When
    [save] raises, or when a page cannot be reproduced, [compress_pdf]
    returns [False] with both handles still open; when the run succeeds both
    are closed. *)
Theorem handles_left_open_on_failure :
  (fst (compress_pdf Demo.save_fails Demo.compressor Demo.start) = inr false /\
   open_docs (snd (compress_pdf Demo.save_fails Demo.compressor Demo.start)) =
     [SourceDocument; OutputDocument]) /\
  (fst (compress_pdf Demo.show_fails_on_page_1 Demo.compressor Demo.start)
     = inr false /\
   open_docs (snd (compress_pdf Demo.show_fails_on_page_1 Demo.compressor
                     Demo.start)) =
     [SourceDocument; OutputDocument]) /\
  (fst (compress_pdf Demo.library Demo.compressor Demo.start) = inr true /\
   open_docs (snd (compress_pdf Demo.library Demo.compressor Demo.start)) = []).
Proof.
  repeat split; vm_compute; reflexivity.
Qed.

(** ** Further properties of the code *)

Section Frame.

Context {F : Type} `{PyFloat F} {casing : PyStr}.
Variable lib : Library F.
Variable self : PDFCompressor.

Abbreviation World := (World F).

Lemma untouched_refl (w : World) : untouched w w.
Proof.
  repeat split. exists []. rewrite app_nil_r. split; [reflexivity | constructor].
Qed.

Lemma untouched_trans (w1 w2 w3 : World) :
  untouched w1 w2 -> untouched w2 w3 -> untouched w1 w3.
Proof.
  intros (Hfs & Hopen & new & Hnew & Hno) (Hfs' & Hopen' & new' & Hnew' & Hno').
  repeat split; [congruence | congruence |].
  exists (new ++ new'). split.
  - rewrite Hnew', Hnew, app_assoc. reflexivity.
  - apply Forall_app. split; assumption.
Qed.

Lemma untouched_log (w : World) r : untouched w (add_log r w).
Proof. exact (untouched_refl w). Qed.

Lemma untouched_call (w : World) (c : Call F) (o : option exn) :
  is_save (c, o) = false -> untouched w (add_call c o w).
Proof.
  intros Hc. repeat split. exists [(c, o)].
  split; [reflexivity | repeat constructor; exact Hc].
Qed.

Lemma untouched_pages (w : World) ps : untouched w (set_out_pages ps w).
Proof. exact (untouched_refl w). Qed.

Lemma pillow_not_save (q : Z) (new : list (Call F * option exn)) :
  Forall (fun c => pillow_call q (fst c)) new ->
  Forall (fun c => is_save c = false) new.
Proof.
  intros Hnew. eapply Forall_impl; [exact Hnew |].
  intros [c o]. unfold is_save. destruct c; simpl; trivial; contradiction.
Qed.

End Frame.

(** Worlds built from an untouched one by logging, by calls other than
    [save] and by changes of the output pages. *)
Ltac untouched_step :=
  lazymatch goal with
  | H : untouched ?a ?b |- untouched ?a ?b => exact H
  | |- untouched ?a (set_out_pages ?ps ?w) =>
      apply (untouched_trans a w); [| apply untouched_pages]
  | |- untouched ?a (add_log ?r ?w) =>
      apply (untouched_trans a w); [| apply untouched_log]
  | |- untouched ?a (add_call ?c ?o ?w) =>
      apply (untouched_trans a w); [| apply untouched_call; reflexivity]
  | |- untouched ?a ?a => apply untouched_refl
  end.

Ltac untouched_tac := repeat untouched_step.

Section Traversals.

Context {F : Type} `{PyFloat F} {casing : PyStr}.
Variable lib : Library F.
Variable self : PDFCompressor.

Abbreviation World := (World F).

Lemma compress_image_untouched (image_bytes : bytes) (image_ext : string) (w : World) :
  wp (compress_image lib self image_bytes image_ext)
     (fun _ w' => untouched w w' /\ out_pages w' = out_pages w)
     (fun _ _ => False) w.
Proof.
  eapply wp_mono; [apply compress_image_frame | | intros ? ? []].
  intros r w' (Hfs & Hopen & Hout & new & Hnew & Hpil).
  split; [| exact Hout]. repeat split; try assumption.
  exists new. split; [exact Hnew |]. exact (pillow_not_save _ _ Hpil).
Qed.

(** Neither an image nor a page changes storage or the handles, whether it
    completes or raises. *)
Lemma process_image_untouched (page_num output_page : nat) (img : ImgItem) (w0 w : World) :
  untouched w0 w ->
  wp (process_image lib self page_num output_page img)
     (fun _ w' => untouched w0 w') (fun _ w' => untouched w0 w') w.
Proof.
  intros Hw. unfold process_image.
  apply wp_bind. unfold extract_image. apply wp_call_value.
  destruct (lib_extract_image lib (img_xref img)) as [e | [d |]];
    [untouched_tac | | apply wp_ret; untouched_tac].
  apply wp_bind.
  eapply wp_mono; [apply compress_image_untouched | | intros ? ? []].
  intros compressed w1 [Hw1 _].
  assert (Hw01 : untouched w0 w1).
  { apply (untouched_trans w0 (add_call (CExtractImage (img_xref img)) None w));
      [untouched_tac | exact Hw1]. }
  destruct compressed as [stream |]; [| apply wp_ret, Hw01].
  apply wp_bind. unfold get_image_bbox. apply wp_call_value.
  destruct (lib_get_image_bbox lib page_num img) as [e | r]; [untouched_tac |].
  destruct (Rect_bool r); [| apply wp_ret; untouched_tac].
  unfold insert_image. apply wp_bind, wp_call_unit.
  destruct (lib_insert_image lib r stream) as [e |]; [untouched_tac |].
  unfold draw. apply wp_modify. untouched_tac.
Qed.

Lemma process_page_untouched (doc : SourceDoc F) (total_pages k : nat) (w0 w : World) :
  untouched w0 w ->
  wp (process_page lib self doc total_pages k)
     (fun _ w' => untouched w0 w') (fun _ w' => untouched w0 w') w.
Proof.
  intros Hw. unfold process_page.
  apply wp_bind, wp_logger_info.
  apply wp_bind, wp_getitem.
  destruct (doc !! k) as [page |]; [| untouched_tac].
  apply wp_bind, wp_new_page.
  apply wp_bind. unfold show_pdf_page. apply wp_bind, wp_call_unit.
  destruct (lib_show_pdf_page lib (rect page) k) as [e |]; [untouched_tac |].
  unfold draw. apply wp_modify.
  destruct (get_images page) as [| img images]; [apply wp_ret; untouched_tac |].
  apply (wp_for_each_const (img :: images) _ (fun w' => untouched w0 w')).
  - intros x w' _ Hw'. apply process_image_untouched. exact Hw'.
  - untouched_tac.
Qed.

Lemma pages_loop_untouched (doc : SourceDoc F) (xs : list nat) (total_pages : nat) (w0 w : World) :
  untouched w0 w ->
  wp (for_each xs (process_page lib self doc total_pages))
     (fun _ w' => untouched w0 w') (fun _ w' => untouched w0 w') w.
Proof.
  intros Hw.
  apply (wp_for_each_const xs _ (fun w' => untouched w0 w')); [| exact Hw].
  intros k w' _ Hw'. apply process_page_untouched. exact Hw'.
Qed.

End Traversals.

Section Runs.

Context {F : Type} `{PyFloat F} {casing : PyStr}.
Variable lib : Library F.
Variable self : PDFCompressor.

Abbreviation World := (World F).

Lemma no_save_filter (new : list (Call F * option exn)) :
  Forall (fun c => is_save c = false) new -> List.filter is_save new = [].
Proof.
  induction 1 as [| c new Hc _ IH]; [reflexivity |].
  simpl. rewrite Hc. exact IH.
Qed.

Lemma close_both (hs : list Handle) :
  filter (fun h' => h' <> SourceDocument)
    (filter (fun h' => h' <> OutputDocument)
       ((hs ++ [SourceDocument]) ++ [OutputDocument])) =
  filter (fun h' => h' <> SourceDocument)
    (filter (fun h' => h' <> OutputDocument) hs).
Proof.
  induction hs as [| h hs IH].
  - cbn. repeat (case_decide; try congruence; cbn). reflexivity.
  - destruct h; cbn; repeat (case_decide; try congruence; cbn);
      first [exact IH | f_equal; exact IH].
Qed.

(** What a run of the [try] block does to storage, to the handles and to the
    trace, on its normal and on its exceptional exits. *)
Lemma compress_pdf_body_effects (w : World) :
  wp (compress_pdf_body lib self)
     (fun b w' =>
        b = true /\
        (forall p, p <> output_path self -> fs w' !! p = fs w !! p) /\
        open_docs w' =
          filter (fun h' => h' <> SourceDocument)
            (filter (fun h' => h' <> OutputDocument) (open_docs w)) /\
        exists new, calls w' = calls w ++ new /\
                    length (List.filter is_save new) = 1)
     (fun _ w' =>
        (forall p, p <> output_path self -> fs w' !! p = fs w !! p) /\
        (open_docs w' = open_docs w \/
         open_docs w' = open_docs w ++ [SourceDocument; OutputDocument]) /\
        (is_Some (fs w !! input_path self) ->
         forall doc, lib_fitz_open lib (input_path self) = inr doc ->
           open_docs w' = open_docs w ++ [SourceDocument; OutputDocument]) /\
        exists new, calls w' = calls w ++ new /\
                    length (List.filter is_save new) <= 1)
     w.
Proof.
  unfold compress_pdf_body.
  apply wp_bind, wp_path_exists. apply wp_bind.
  destruct (bool_decide (is_Some (fs w !! input_path self))) eqn:Hfound.
  2:{ apply wp_raise. apply bool_decide_eq_false in Hfound.
      repeat split; auto; [contradiction |].
      exists []. rewrite app_nil_r. split; [reflexivity | simpl; lia]. }
  apply wp_ret. apply wp_bind, wp_logger_info.
  apply wp_bind. unfold fitz_open. apply wp_bind, wp_call_value.
  destruct (lib_fitz_open lib (input_path self)) as [e | doc] eqn:Hopen.
  { world_simpl. repeat split; auto; [discriminate |].
    eexists. split; [reflexivity | simpl; lia]. }
  apply wp_bind, wp_modify, wp_ret.
  apply wp_bind. unfold fitz_new. apply wp_bind, wp_call_unit, wp_modify.
  apply wp_bind.
  match goal with |- wp _ _ _ ?wn => set (w_n := wn) end.
  assert (Hfs_n : fs w_n = fs w) by reflexivity.
  assert (Hopen_n : open_docs w_n = (open_docs w ++ [SourceDocument]) ++ [OutputDocument])
    by reflexivity.
  assert (Hcalls_n : calls w_n =
            (calls w ++ [(CFitzOpen (input_path self), None)]) ++ [(CFitzNew, None)])
    by reflexivity.
  clearbody w_n.
  eapply wp_mono; [apply (pages_loop_untouched lib self doc _ _ w_n w_n),
                     untouched_refl | |].
  2:{ intros e w_l (Hfs & Hopen_l & new & Hnew & Hno).
      rewrite Hfs, Hfs_n, Hopen_l, Hopen_n, Hnew, Hcalls_n, <- !app_assoc.
      repeat split; auto.
      eexists. split; [reflexivity |].
      simpl. rewrite (no_save_filter _ Hno). simpl. lia. }
  intros u w_l (Hfs & Hopen_l & new & Hnew & Hno).
  pose proof (no_save_filter _ Hno) as Hfilter.
  apply wp_bind, wp_save.
  destruct (lib_save lib (out_pages w_l) (output_path self)) as [n | e [m |]].
  - apply wp_bind, wp_getsize. world_simpl.
    destruct (<[output_path self:=n]> (fs w_l) !! input_path self) as [o |].
    2:{ rewrite Hfs, Hfs_n, Hopen_l, Hopen_n, Hnew, Hcalls_n, <- !app_assoc.
        repeat split; auto.
        - intros p Hp. apply lookup_insert_ne. congruence.
        - eexists. split; [reflexivity |].
          simpl. rewrite List.filter_app, Hfilter. simpl. lia. }
    apply wp_bind, wp_getsize. world_simpl. rewrite lookup_insert_eq.
    apply wp_bind, wp_truediv.
    { intros _. world_simpl.
      rewrite Hfs, Hfs_n, Hopen_l, Hopen_n, Hnew, Hcalls_n, <- !app_assoc.
      repeat split; auto.
      - intros p Hp. apply lookup_insert_ne. congruence.
      - eexists. split; [reflexivity |].
        simpl. rewrite List.filter_app, Hfilter. simpl. lia. }
    intros _.
    apply wp_bind, wp_logger_info.
    apply wp_bind, wp_truediv; [discriminate | intros _].
    apply wp_bind, wp_logger_info.
    apply wp_bind, wp_truediv; [discriminate | intros _].
    apply wp_bind, wp_logger_info.
    apply wp_bind, wp_logger_info.
    apply wp_bind, wp_close. apply wp_bind, wp_close.
    apply wp_ret. world_simpl.
    rewrite Hfs, Hfs_n, Hopen_l, Hopen_n, Hnew, Hcalls_n, <- !app_assoc.
    split; [reflexivity |]. split; [| split].
    + intros p Hp. apply lookup_insert_ne. congruence.
    + rewrite app_assoc. apply close_both.
    + eexists. split; [reflexivity |].
      simpl. rewrite !List.filter_app, Hfilter. reflexivity.
  - world_simpl.
    rewrite Hfs, Hfs_n, Hopen_l, Hopen_n, Hnew, Hcalls_n, <- !app_assoc.
    repeat split; auto.
    + intros p Hp. apply lookup_insert_ne. congruence.
    + eexists. split; [reflexivity |].
      simpl. rewrite List.filter_app, Hfilter. simpl. lia.
  - world_simpl.
    rewrite Hfs, Hfs_n, Hopen_l, Hopen_n, Hnew, Hcalls_n, <- !app_assoc.
    repeat split; auto.
    eexists. split; [reflexivity |].
    simpl. rewrite List.filter_app, Hfilter. simpl. lia.
Qed.

(** [compress_pdf] returns [True] exactly when its [try] block completes,
    and [False], after logging, exactly when the block raises. *)
Lemma compress_pdf_cases (w : World) (b : bool) (w' : World) :
  compress_pdf lib self w = (inr b, w') ->
  (b = true /\ compress_pdf_body lib self w = (inr true, w')) \/
  (b = false /\ exists e w1,
      compress_pdf_body lib self w = (inl e, w1) /\
      w' = add_log (ERROR, ErrorCompressingPDF e) w1).
Proof.
  pose proof (compress_pdf_body_effects w) as Hwp. unfold wp in Hwp.
  unfold compress_pdf, try_except.
  destruct (compress_pdf_body lib self w) as [[e | b'] w1].
  - cbn. intros Hrun. injection Hrun as <- <-. right. eauto.
  - destruct Hwp as [-> _]. intros Hrun. injection Hrun as <- <-. left. auto.
Qed.

(** X1. A run that returns [True] has closed both handles: starting with no
    open handle, none is open when the call returns. *)
Theorem handles_closed_on_success (w w' : World) :
  compress_pdf lib self w = (inr true, w') ->
  open_docs w = [] ->
  open_docs w' = [].
Proof.
  intros Hrun Hnone.
  destruct (compress_pdf_cases _ _ _ Hrun) as [[_ Hbody] | [Hb _]];
    [| discriminate].
  pose proof (wp_run _ _ _ _ _ _ (compress_pdf_body_effects w) Hbody)
    as (_ & _ & Hopen & _).
  rewrite Hopen, Hnone. reflexivity.
Qed.

(** X2. A run that returns [False] although the input exists and was opened
    has closed nothing: the two handles it opened are still open. *)
Theorem handles_open_after_failure (doc : SourceDoc F) (w w' : World) :
  compress_pdf lib self w = (inr false, w') ->
  is_Some (fs w !! input_path self) ->
  lib_fitz_open lib (input_path self) = inr doc ->
  open_docs w' = open_docs w ++ [SourceDocument; OutputDocument].
Proof.
  intros Hrun Hexists Hopen.
  destruct (compress_pdf_cases _ _ _ Hrun) as [[Hb _] | (_ & e & w1 & Hbody & ->)];
    [discriminate |].
  pose proof (wp_run _ _ _ _ _ _ (compress_pdf_body_effects w) Hbody)
    as (_ & _ & Hafter & _).
  exact (Hafter Hexists doc Hopen).
Qed.

(** X3. Whatever happens in a run, the only file that can change is the one
    at the output path: every other path holds what it held before. *)
Theorem only_output_path_written (w : World) (p : string) :
  p <> output_path self ->
  fs (snd (compress_pdf lib self w)) !! p = fs w !! p.
Proof.
  intros Hp.
  pose proof (compress_pdf_body_effects w) as Hwp. unfold wp in Hwp.
  unfold compress_pdf, try_except.
  destruct (compress_pdf_body lib self w) as [[e | b] w1].
  - destruct Hwp as (Hfs & _). exact (Hfs p Hp).
  - destruct Hwp as (_ & Hfs & _). exact (Hfs p Hp).
Qed.


End Runs.

Section Sizes.

Context {F : Type} `{PyFloat F} {casing : PyStr}.
Variable lib : Library F.
Variable self : PDFCompressor.

Abbreviation World := (World F).

(** X6. When the output path is the input path, a run that returns [True]
    has replaced the input, and the size it reports as the original is the
    size of the compressed file: the ratio is computed from that one size. *)
Theorem in_place_reports_one_size (w w' : World) :
  input_path self = output_path self ->
  compress_pdf lib self w = (inr true, w') ->
  exists compressed_size l pages,
    lib_save lib pages (output_path self) = Saved compressed_size /\
    fs w' !! input_path self = Some compressed_size /\
    log w' = l ++
      [(INFO, CompressionRatio
                (fmul (fsub (float_of_int 1)
                            (int_truediv compressed_size compressed_size))
                      (float_of_int 100)))].
Proof.
  intros Hsame Hrun. apply compress_pdf_true in Hrun.
  pose proof (wp_run _ _ _ _ _ _ (compress_pdf_body_ratio lib self w) Hrun)
    as (o & c & l & pages & Hin & Hout & _ & _ & Hsave & Hlog).
  rewrite Hsame in Hin. rewrite Hin in Hout. injection Hout as ->.
  exists c, l, pages. rewrite Hsame. repeat split; assumption.
Qed.

End Sizes.

Section Fatal.

Context {F : Type} `{PyFloat F} {casing : PyStr}.
Variable lib : Library F.
Variable self : PDFCompressor.

Abbreviation World := (World F).

(** A loop one of whose elements always raises does not complete. *)
Lemma wp_for_each_raises {A} (body : A -> M F unit) (x : A) (P : World -> Prop) :
  (forall y w, P w -> wp (body y) (fun _ w' => P w') (fun _ w' => P w') w) ->
  (forall w, P w -> wp (body x) (fun _ _ => False) (fun _ w' => P w') w) ->
  forall xs w, In x xs -> P w ->
  wp (for_each xs body) (fun _ _ => False) (fun _ w' => P w') w.
Proof.
  intros Hall Hx. induction xs as [| y xs IH]; intros w Hin Hw; [contradiction |].
  simpl. apply wp_bind. destruct Hin as [-> | Hin].
  - eapply wp_mono; [apply Hx, Hw | intros ? ? [] | auto].
  - eapply wp_mono; [apply Hall, Hw | | auto].
    intros u w' Hw'. apply IH; assumption.
Qed.

Lemma process_image_extract_raises (page_num output_page : nat) (img : ImgItem)
    (e : exn) (w0 w : World) :
  lib_extract_image lib (img_xref img) = inl e ->
  untouched w0 w ->
  wp (process_image lib self page_num output_page img)
     (fun _ _ => False) (fun _ w' => untouched w0 w') w.
Proof.
  intros Hextract Hw. unfold process_image.
  apply wp_bind. unfold extract_image. apply wp_call_value.
  rewrite Hextract. untouched_tac.
Qed.

Lemma process_page_extract_raises (doc : SourceDoc F) (total_pages k : nat)
    (page : SourcePage F) (img : ImgItem) (e : exn) (w0 w : World) :
  doc !! k = Some page -> In img (get_images page) ->
  lib_extract_image lib (img_xref img) = inl e ->
  untouched w0 w ->
  wp (process_page lib self doc total_pages k)
     (fun _ _ => False) (fun _ w' => untouched w0 w') w.
Proof.
  intros Hpage Himg Hextract Hw. unfold process_page.
  apply wp_bind, wp_logger_info.
  apply wp_bind, wp_getitem. rewrite Hpage.
  apply wp_bind, wp_new_page.
  apply wp_bind. unfold show_pdf_page. apply wp_bind, wp_call_unit.
  destruct (lib_show_pdf_page lib (rect page) k) as [e' |]; [untouched_tac |].
  unfold draw. apply wp_modify.
  destruct (get_images page) as [| img0 images] eqn:Himages; [contradiction |].
  apply (wp_for_each_raises _ img (fun w' => untouched w0 w')).
  - intros y w' Hw'. apply process_image_untouched. exact Hw'.
  - intros w' Hw'. apply (process_image_extract_raises _ _ _ e); assumption.
  - exact Himg.
  - untouched_tac.
Qed.

(** X7. Unlike a Pillow error, an exception raised by [extract_image] is not
    absorbed: if fetching any image of any page raises, the run returns
    [False], [save] is never called and storage is left as it was. *)
Theorem extract_exception_is_fatal (doc : SourceDoc F) (k : nat)
    (page : SourcePage F) (img : ImgItem) (e : exn) (w : World) :
  is_Some (fs w !! input_path self) ->
  lib_fitz_open lib (input_path self) = inr doc ->
  doc !! k = Some page -> In img (get_images page) ->
  lib_extract_image lib (img_xref img) = inl e ->
  exists w',
    compress_pdf lib self w = (inr false, w') /\
    fs w' = fs w /\
    Forall (fun c => is_save c = false) (calls_since w w').
Proof.
  intros Hexists Hopen Hpage Himg Hextract.
  assert (Hwp :
    wp (compress_pdf_body lib self) (fun _ _ => False)
       (fun _ w' => fs w' = fs w /\
                    Forall (fun c => is_save c = false) (calls_since w w')) w).
  { unfold compress_pdf_body.
    apply wp_bind, wp_path_exists.
    rewrite bool_decide_eq_true_2 by exact Hexists.
    apply wp_bind, wp_ret. apply wp_bind, wp_logger_info.
    apply wp_bind. unfold fitz_open. apply wp_bind, wp_call_value.
    rewrite Hopen.
    apply wp_bind, wp_modify, wp_ret.
    apply wp_bind. unfold fitz_new. apply wp_bind, wp_call_unit, wp_modify.
    apply wp_bind.
    match goal with |- wp _ _ _ ?wn => set (w_n := wn) end.
    assert (Hfs_n : fs w_n = fs w) by reflexivity.
    assert (Hcalls_n : calls w_n =
              calls w ++ [(CFitzOpen (input_path self), None); (CFitzNew, None)]).
    { subst w_n. world_simpl. rewrite <- app_assoc. reflexivity. }
    clearbody w_n.
    eapply wp_mono;
      [apply (wp_for_each_raises _ k (fun w' => untouched w_n w')) | intros ? ? [] |].
    - intros y w' Hw'. apply process_page_untouched. exact Hw'.
    - intros w' Hw'.
      apply (process_page_extract_raises doc _ k page img e); assumption.
    - apply in_seq. apply lookup_lt_Some in Hpage. lia.
    - apply untouched_refl.
    - intros e' w' (Hfs & _ & new & Hnew & Hno). split; [congruence |].
      rewrite Hcalls_n, <- app_assoc in Hnew.
      rewrite (calls_since_app _ _ _ Hnew).
      repeat constructor. exact Hno. }
  unfold wp in Hwp. unfold compress_pdf, try_except.
  destruct (compress_pdf_body lib self w) as [[e' | b] w1]; [| contradiction].
  destruct Hwp as [Hfs Hno]. eexists. split; [reflexivity |].
  split; [exact Hfs | exact Hno].
Qed.

End Fatal.

Section Pages.

Context {F : Type} `{PyFloat F} {casing : PyStr}.
Variable lib : Library F.
Variable self : PDFCompressor.

Abbreviation World := (World F).

Lemma reproductions_snoc (doc : SourceDoc F) (k : nat) (page : SourcePage F) :
  doc !! k = Some page ->
  imap reproduction (take (S k) doc) =
  imap reproduction (take k doc) ++ [reproduction k page].
Proof.
  intros Hpage.
  assert (Hk : k < length doc) by (apply lookup_lt_is_Some; eauto).
  rewrite (take_S_r _ _ _ Hpage), imap_app. simpl.
  rewrite length_take, Nat.min_l, Nat.add_0_r by lia. reflexivity.
Qed.

Lemma alter_last {A} (f : A -> A) (l : list A) (x : A) :
  alter f (length l) (l ++ [x]) = l ++ [f x].
Proof.
  induction l as [| y l IH]; [reflexivity |]. simpl. f_equal. exact IH.
Qed.

(** A page without images adds its reproduction and nothing else. *)
Lemma process_page_text (doc : SourceDoc F) (total_pages k : nat)
    (page : SourcePage F) (w : World) :
  doc !! k = Some page -> get_images page = [] ->
  out_pages w = imap reproduction (take k doc) ->
  wp (process_page lib self doc total_pages k)
     (fun _ w' => out_pages w' = imap reproduction (take (S k) doc))
     (fun _ _ => True) w.
Proof.
  intros Hpage Himages Hout. unfold process_page.
  assert (Hk : k < length doc) by (apply lookup_lt_is_Some; eauto).
  apply wp_bind, wp_logger_info.
  apply wp_bind, wp_getitem. rewrite Hpage.
  apply wp_bind, wp_new_page.
  apply wp_bind. unfold show_pdf_page. apply wp_bind, wp_call_unit.
  destruct (lib_show_pdf_page lib (rect page) k) as [e |]; [exact I |].
  unfold draw. apply wp_modify. rewrite Himages. apply wp_ret.
  world_simpl. rewrite alter_last, (reproductions_snoc _ _ _ Hpage), Hout.
  reflexivity.
Qed.

Lemma compress_pdf_body_text (doc : SourceDoc F) (w : World) :
  lib_fitz_open lib (input_path self) = inr doc ->
  Forall (fun p => get_images p = []) doc ->
  wp (compress_pdf_body lib self)
     (fun _ w' => out_pages w' = imap reproduction doc) (fun _ _ => True) w.
Proof.
  intros Hopen Htext. unfold compress_pdf_body.
  apply wp_bind, wp_path_exists. apply wp_bind.
  destruct (bool_decide _); [apply wp_ret | exact I].
  apply wp_bind, wp_logger_info.
  apply wp_bind. unfold fitz_open. apply wp_bind, wp_call_value.
  rewrite Hopen. apply wp_bind, wp_modify, wp_ret.
  apply wp_bind. unfold fitz_new. apply wp_bind, wp_call_unit, wp_modify.
  apply wp_bind.
  apply wp_mono with
    (Q := fun _ w' =>
            out_pages w' = imap reproduction (take (length (seq 0 (length doc))) doc))
    (E := fun _ _ => True); [| | auto].
  - apply (wp_for_each _ _
             (fun done w' =>
                out_pages w' = imap reproduction (take (length done) doc))
             (fun _ _ => True)); [| reflexivity].
    intros done k rest w' Hseq Hout.
    destruct (seq_split _ _ _ _ Hseq) as [-> Hlt].
    destruct (lookup_lt_is_Some_2 doc _ Hlt) as [page Hpage].
    rewrite length_app. simpl. rewrite Nat.add_1_r.
    apply (process_page_text doc _ _ page); try assumption.
    rewrite List.Forall_forall in Htext. apply Htext.
    apply list_elem_of_In, list_elem_of_lookup. eauto.
  - intros u w1 Hout. rewrite length_seq, firstn_all in Hout.
    apply wp_bind, wp_save.
    destruct (lib_save lib (out_pages w1) (output_path self)) as [n | e [m |]];
      try exact I.
    apply wp_bind, wp_getsize. world_simpl.
    destruct (<[output_path self:=n]> (fs w1) !! input_path self); [| exact I].
    apply wp_bind, wp_getsize. world_simpl. rewrite lookup_insert_eq.
    repeat wp_step; trivial.
Qed.

(** X8. For a document none of whose pages lists an image, a run that
    returns [True] leaves an output document made of the reproductions of
    the source pages, in order, with nothing inserted. *)
Theorem text_document_is_reproduced (doc : SourceDoc F) (w w' : World) :
  lib_fitz_open lib (input_path self) = inr doc ->
  Forall (fun p => get_images p = []) doc ->
  compress_pdf lib self w = (inr true, w') ->
  out_pages w' =
    imap (fun i p => mkOut (Rect_width (rect p)) (Rect_height (rect p))
                       [ShownPage (rect p) i]) doc.
Proof.
  intros Hopen Htext Hrun. apply compress_pdf_true in Hrun.
  exact (wp_run _ _ _ _ _ _ (compress_pdf_body_text doc w Hopen Htext) Hrun).
Qed.

End Pages.

Section Hints.

Context {F : Type} `{PyFloat F} {casing : PyStr}.
Variable lib : Library F.
Variable self : PDFCompressor.

Abbreviation World := (World F).

Lemma upper_lower_ascii (c : ascii) :
  upper_ascii (lower_ascii c) = upper_ascii c.
Proof.
  destruct c as [[] [] [] [] [] [] [] []]; reflexivity.
Qed.

Lemma ascii_upper_lower (s : string) :
  ascii_upper (ascii_lower s) = ascii_upper s.
Proof.
  induction s as [| c s IH]; [reflexivity |].
  simpl. rewrite upper_lower_ascii, IH. reflexivity.
Qed.

(** X9. Two ASCII format hints that differ only in the case of their letters
    give the same encoder arguments, in all three branches: for ASCII text
    the upper-cased hint of the fallback is determined by the lower-cased
    one. *)
Theorem format_hint_case_insensitive (a b : string) :
  is_ascii a = true -> is_ascii b = true ->
  lower a = lower b ->
  save_params self a = save_params self b.
Proof.
  intros Ha Hb Hsame. unfold save_params. rewrite Hsame.
  assert (Hupper : upper a = upper b).
  { rewrite (upper_ascii_text a Ha), (upper_ascii_text b Hb).
    rewrite <- (ascii_upper_lower a), <- (ascii_upper_lower b).
    rewrite <- (lower_ascii_text a Ha), <- (lower_ascii_text b Hb), Hsame.
    reflexivity. }
  rewrite Hupper. reflexivity.
Qed.

(** X10. [compress_image] has no effect outside Pillow and the log: storage,
    handles and output pages are as before, every call it makes is a Pillow
    call, and it logs nothing when it returns bytes and exactly one error
    record when it returns [None]. *)
Theorem compress_image_only_calls_pillow (image_bytes : bytes) (image_ext : string) (w : World) :
  exists r w',
    compress_image lib self image_bytes image_ext w = (inr r, w') /\
    fs w' = fs w /\ open_docs w' = open_docs w /\
    out_pages w' = out_pages w /\
    Forall (fun c => pillow_call (image_quality self) (fst c)) (calls_since w w') /\
    match r with
    | Some _ => log w' = log w
    | None => exists e, log w' = log w ++ [(ERROR, ErrorCompressingImage e)]
    end.
Proof.
  pose proof (wp_conj _ _ _ _ _ _
                (compress_image_frame lib self image_bytes image_ext w)
                (compress_image_spec lib self image_bytes image_ext w)) as Hwp.
  unfold wp in Hwp.
  destruct (compress_image lib self image_bytes image_ext w) as [[e | r] w'].
  { destruct Hwp as [[] _]. }
  destruct Hwp as [(Hfs & Hopen & Hout & new & Hnew & Hpil)
                   (new' & Hnew' & Hsave & Hraise & Hnone & Hsome)].
  assert (new' = new) as -> by (rewrite Hnew in Hnew'; eapply app_inv_head; eauto).
  exists r, w'. repeat split; try assumption.
  - rewrite (calls_since_app _ _ _ Hnew). exact Hpil.
  - destruct r as [b |].
    + destruct (Hsome b eq_refl) as [im Hin].
      destruct (Hsave _ _ _ Hin) as (_ & b' & _ & _ & Hlog). exact Hlog.
    + destruct (Hnone eq_refl) as (c & e & Hin).
      exists e. exact (proj2 (Hraise c e Hin)).
Qed.

End Hints.

Section Progress.

Context {F : Type} `{PyFloat F} {casing : PyStr}.
Variable lib : Library F.
Variable self : PDFCompressor.

Abbreviation World := (World F).

Lemma progress_log_error (l : list (Level * Message F)) (m : Message F) :
  progress_log (l ++ [(ERROR, m)]) = progress_log l.
Proof.
  unfold progress_log. rewrite omap_app. simpl. apply app_nil_r.
Qed.

Lemma progress_log_page (l : list (Level * Message F)) (i total : nat) :
  progress_log (l ++ [(INFO, ProcessingPage i total)]) =
  progress_log l ++ [(i, total)].
Proof.
  unfold progress_log. rewrite omap_app. reflexivity.
Qed.

Lemma compress_image_progress (image_bytes : bytes) (image_ext : string) (w : World) :
  wp (compress_image lib self image_bytes image_ext)
     (fun _ w' => progress_log (log w') = progress_log (log w))
     (fun _ _ => False) w.
Proof.
  unfold compress_image.
  repeat wp_step; world_simpl; rewrite ?progress_log_error; reflexivity.
Qed.

Lemma process_image_progress (page_num output_page : nat) (img : ImgItem) (w : World) :
  wp (process_image lib self page_num output_page img)
     (fun _ w' => progress_log (log w') = progress_log (log w))
     (fun _ _ => True) w.
Proof.
  unfold process_image.
  apply wp_bind. unfold extract_image. apply wp_call_value.
  destruct (lib_extract_image lib (img_xref img)) as [e | [d |]];
    [exact I | | apply wp_ret; reflexivity].
  apply wp_bind.
  eapply wp_mono; [apply compress_image_progress | | intros ? ? []].
  intros compressed w1 Hlog. world_simpl.
  destruct compressed as [stream |]; [| apply wp_ret; exact Hlog].
  repeat wp_step; world_simpl; trivial.
Qed.

Lemma process_page_progress (doc : SourceDoc F) (total_pages k : nat) (w : World) :
  wp (process_page lib self doc total_pages k)
     (fun _ w' => progress_log (log w') =
                  progress_log (log w) ++ [(k + 1, total_pages)])
     (fun _ _ => True) w.
Proof.
  unfold process_page.
  apply wp_bind, wp_logger_info.
  apply wp_bind, wp_getitem.
  destruct (doc !! k) as [page |]; [| exact I].
  apply wp_bind, wp_new_page.
  apply wp_bind. unfold show_pdf_page. apply wp_bind, wp_call_unit.
  destruct (lib_show_pdf_page lib (rect page) k) as [e |]; [exact I |].
  unfold draw. apply wp_modify. world_simpl.
  destruct (get_images page) as [| img images];
    [apply wp_ret; world_simpl; apply progress_log_page |].
  apply (wp_for_each_const (img :: images) _
           (fun w' => progress_log (log w') =
                      progress_log (log w) ++ [(k + 1, total_pages)])).
  - intros x w' _ Hlog. rewrite <- Hlog. apply process_image_progress.
  - world_simpl. apply progress_log_page.
Qed.

Lemma compress_pdf_body_progress (doc : SourceDoc F) (w : World) :
  lib_fitz_open lib (input_path self) = inr doc ->
  wp (compress_pdf_body lib self)
     (fun _ w' =>
        progress_log (log w') =
        progress_log (log w) ++
        map (fun i => (i + 1, length doc)) (seq 0 (length doc)))
     (fun _ _ => True) w.
Proof.
  intros Hopen. unfold compress_pdf_body.
  apply wp_bind, wp_path_exists. apply wp_bind.
  destruct (bool_decide _); [apply wp_ret | exact I].
  apply wp_bind, wp_logger_info.
  apply wp_bind. unfold fitz_open. apply wp_bind, wp_call_value.
  rewrite Hopen. apply wp_bind, wp_modify, wp_ret.
  apply wp_bind. unfold fitz_new. apply wp_bind, wp_call_unit, wp_modify.
  apply wp_bind. world_simpl.
  apply wp_mono with
    (Q := fun _ w' =>
            progress_log (log w') =
            progress_log (log w) ++
            map (fun i => (i + 1, length doc)) (seq 0 (length doc)))
    (E := fun _ _ => True); [| | auto].
  - apply (wp_for_each _ _
             (fun done w' =>
                progress_log (log w') =
                progress_log (log w) ++ map (fun i => (i + 1, length doc)) done)
             (fun _ _ => True)).
    + intros done k rest w' Hseq Hlog.
      eapply wp_mono; [apply process_page_progress | | auto].
      intros u w'' Hlog'. cbv beta in Hlog'.
      rewrite Hlog', Hlog, map_app, <- app_assoc. reflexivity.
    + world_simpl. unfold progress_log. rewrite omap_app. simpl.
      rewrite !app_nil_r. reflexivity.
  - intros u w1 Hlog.
    apply wp_bind, wp_save.
    destruct (lib_save lib (out_pages w1) (output_path self)) as [n | e [m |]];
      try exact I.
    apply wp_bind, wp_getsize. world_simpl.
    destruct (<[output_path self:=n]> (fs w1) !! input_path self); [| exact I].
    apply wp_bind, wp_getsize. world_simpl. rewrite lookup_insert_eq.
    repeat wp_step; trivial. world_simpl.
    unfold progress_log in *. rewrite !omap_app. simpl.
    rewrite !app_nil_r. exact Hlog.
Qed.

(** X11. A run that returns [True] on a document of [N] pages has logged
    the progress records "page 1/N", ..., "page N/N", once each and in this
    order. *)
Theorem progress_logged_per_page (doc : SourceDoc F) (w w' : World) :
  lib_fitz_open lib (input_path self) = inr doc ->
  compress_pdf lib self w = (inr true, w') ->
  progress_log (log w') =
  progress_log (log w) ++ map (fun i => (i + 1, length doc)) (seq 0 (length doc)).
Proof.
  intros Hopen Hrun. apply compress_pdf_true in Hrun.
  exact (wp_run _ _ _ _ _ _ (compress_pdf_body_progress doc w Hopen) Hrun).
Qed.

End Progress.

(** ** The script *)

Lemma compress_pdf_returns {F : Type} `{PyFloat F} {casing : PyStr} (lib : Library F)
    (self : PDFCompressor) (w : World F) :
  exists b, fst (compress_pdf lib self w) = inr b.
Proof.
  unfold compress_pdf, try_except.
  destruct (compress_pdf_body lib self w) as [[e | b] w1]; cbn; eauto.
Qed.

(** X12. [main] always returns [None]: whether [compress_pdf] returned
    [True] or [False] is dropped, and the world [main] leaves is the one
    [compress_pdf] left; every encode of a run of [main] carries quality 50,
    not the constructor's default. *)
Theorem main_discards_the_result {F : Type} `{PyFloat F} {casing : PyStr} (lib : Library F)
    (w : World F) (files : gmap string Z) :
  let compressor :=
    init "C:\Users\Vadym\Desktop\pdfCompressor\test_1.pdf"
         "C:\Users\Vadym\Desktop\pdfCompressor\compressed.pdf" 50 in
  main lib w = (inr tt, snd (compress_pdf lib compressor w)) /\
  forall im p o,
    In (CImageSave im p, o) (calls (snd (main lib (initial_world files)))) ->
    sp_quality p = 50%Z.
Proof.
  intros compressor.
  assert (Hmain : forall w0,
            main lib w0 = (inr tt, snd (compress_pdf lib compressor w0))).
  { intros w0. unfold main, bind. fold compressor.
    destruct (compress_pdf_returns lib compressor w0) as [b Hb].
    destruct (compress_pdf lib compressor w0) as [r w']. cbn in Hb. subst r.
    reflexivity. }
  split; [apply Hmain |].
  rewrite Hmain. cbn [snd].
  intros im p o Hin.
  pose proof (compress_pdf_keeps lib compressor (encodes_with 50)
                (benign_encodes_with 50)
                (fun _ _ _ _ _ _ => I)
                (initial_world files) (List.Forall_nil _)) as Hwp.
  unfold wp in Hwp.
  destruct (compress_pdf lib compressor (initial_world files)) as [[e | b] w'];
    [contradiction |].
  rewrite List.Forall_forall in Hwp. exact (Hwp _ Hin).
Qed.

Section Inserts.

Context {F : Type} `{PyFloat F} {casing : PyStr}.
Variable lib : Library F.
Variable self : PDFCompressor.

Abbreviation World := (World F).

Abbreviation follows := (insert_follows lib).

Lemma follows_app (cs new : list (Call F * option exn)) :
  follows cs -> Forall (fun c => is_insert c = false) new -> follows (cs ++ new).
Proof.
  intros Hcs Hnew i k r stream o Hi.
  apply lookup_app_Some in Hi. destruct Hi as [Hi | [_ Hi]].
  - destruct (Hcs i k r stream o Hi)
      as (Htruthy & j & im & p & pno & img & -> & Henc & Hlib & Hbbox & Hrect).
    split; [exact Htruthy |]. exists j, im, p, pno, img.
    repeat split; try assumption; apply lookup_app_l_Some; assumption.
  - pose proof (Forall_lookup_1 _ _ _ _ Hnew Hi) as Hno. discriminate Hno.
Qed.

Lemma follows_call (cs : list (Call F * option exn)) (c : Call F) (o : option exn) :
  is_insert (c, o) = false -> follows cs -> follows (cs ++ [(c, o)]).
Proof.
  intros Hc Hcs. apply follows_app; [exact Hcs | repeat constructor; exact Hc].
Qed.

Lemma follows_pillow (q : Z) (cs new : list (Call F * option exn)) :
  Forall (fun c => pillow_call q (fst c)) new -> follows cs -> follows (cs ++ new).
Proof.
  intros Hnew Hcs. apply follows_app; [exact Hcs |].
  eapply Forall_impl; [exact Hnew |].
  intros [c o]. unfold is_insert. destruct c; simpl; trivial; contradiction.
Qed.

(** The insertion made right after a successful encode and a successful
    [get_image_bbox]. *)
Lemma follows_insert (pre : list (Call F * option exn)) (im : PILImage)
    (p : SaveParams) (pno : nat) (img : ImgItem) (k : nat) (r : Rect F)
    (stream : bytes) (o : option exn) :
  follows ((pre ++ [(CImageSave im p, None)]) ++ [(CGetImageBbox pno img, None)]) ->
  lib_Image_save lib im p = inr stream ->
  lib_get_image_bbox lib pno img = inr r ->
  Rect_bool r = true ->
  follows (((pre ++ [(CImageSave im p, None)]) ++ [(CGetImageBbox pno img, None)])
           ++ [(CInsertImage k r stream, o)]).
Proof.
  intros Hcs Hlib Hrect Htruthy i k' r' stream' o' Hi.
  apply lookup_app_Some in Hi. destruct Hi as [Hi | [Hlen Hi]].
  - destruct (Hcs i k' r' stream' o' Hi)
      as (Htruthy' & j & im' & p' & pno' & img' & -> & Henc & Hlib' & Hbbox & Hrect').
    split; [exact Htruthy' |]. exists j, im', p', pno', img'.
    repeat split; try assumption; apply lookup_app_l_Some; assumption.
  - rewrite !length_app in Hlen. simpl in Hlen.
    destruct (i - length ((pre ++ [(CImageSave im p, None)]) ++
                          [(CGetImageBbox pno img, None)])) as [| n] eqn:Hn;
      [| destruct n; discriminate Hi].
    rewrite !length_app in Hn. simpl in Hn.
    injection Hi as <- <- <- <-.
    split; [exact Htruthy |]. exists (length pre), im, p, pno, img.
    split; [lia |]. split; [| split; [exact Hlib | split; [| exact Hrect]]].
    + rewrite <- !app_assoc. apply list_lookup_middle. reflexivity.
    + apply lookup_app_l_Some. apply list_lookup_middle.
      rewrite length_app. simpl. lia.
Qed.

(** When [compress_image] returns bytes, its last call is the encode that
    answered them. *)
Lemma compress_image_last (image_bytes : bytes) (image_ext : string) (w : World) :
  wp (compress_image lib self image_bytes image_ext)
     (fun res w' =>
        forall b, res = Some b ->
          exists pre im p,
            calls w' = pre ++ [(CImageSave im p, None)] /\
            lib_Image_save lib im p = inr b)
     (fun _ _ => False) w.
Proof.
  unfold compress_image.
  repeat wp_step; world_simpl; intros b' Hb; simplify_eq;
    do 3 eexists; (split; [reflexivity | eassumption]).
Qed.

Lemma process_image_follows (page_num output_page : nat) (img : ImgItem) (w : World) :
  follows (calls w) ->
  wp (process_image lib self page_num output_page img)
     (fun _ w' => follows (calls w')) (fun _ w' => follows (calls w')) w.
Proof.
  intros Hw. unfold process_image.
  apply wp_bind. unfold extract_image. apply wp_call_value.
  assert (Hext : forall o, follows (calls w ++ [(CExtractImage (img_xref img), o)]))
    by (intros o; apply follows_call; [reflexivity | exact Hw]).
  destruct (lib_extract_image lib (img_xref img)) as [e | [d |]];
    [apply Hext | | apply wp_ret, Hext].
  apply wp_bind.
  eapply wp_mono;
    [exact (wp_conj _ _ _ _ _ _
              (compress_image_frame lib self (bi_image d) (bi_ext d) _)
              (compress_image_last (bi_image d) (bi_ext d) _)) |
     | intros ? ? [[] _]].
  intros compressed w1 [(_ & _ & _ & new & Hnew & Hpil) Hlast].
  world_simpl.
  assert (Hw1 : follows (calls w1)).
  { rewrite Hnew. apply (follows_pillow _ _ _ Hpil). apply Hext. }
  destruct compressed as [stream |]; [| apply wp_ret, Hw1].
  destruct (Hlast stream eq_refl) as (pre & im & p & Hcalls & Hlib).
  apply wp_bind. unfold get_image_bbox. apply wp_call_value.
  assert (Hbbox : forall o, follows (calls w1 ++ [(CGetImageBbox page_num img, o)]))
    by (intros o; apply follows_call; [reflexivity | exact Hw1]).
  destruct (lib_get_image_bbox lib page_num img) as [e | r] eqn:Hrect;
    [apply Hbbox |].
  destruct (Rect_bool r) eqn:Htruthy; [| apply wp_ret, Hbbox].
  unfold insert_image. apply wp_bind, wp_call_unit.
  assert (Hins : forall o,
    follows ((calls w1 ++ [(CGetImageBbox page_num img, None)]) ++
             [(CInsertImage output_page r stream, o)])).
  { intros o. specialize (Hbbox None). rewrite Hcalls in Hbbox |- *.
    apply follows_insert; assumption. }
  destruct (lib_insert_image lib r stream) as [e |]; [apply Hins |].
  unfold draw. apply wp_modify. apply Hins.
Qed.

Lemma process_page_follows (doc : SourceDoc F) (total_pages k : nat) (w : World) :
  follows (calls w) ->
  wp (process_page lib self doc total_pages k)
     (fun _ w' => follows (calls w')) (fun _ w' => follows (calls w')) w.
Proof.
  intros Hw. unfold process_page.
  apply wp_bind, wp_logger_info.
  apply wp_bind, wp_getitem.
  destruct (doc !! k) as [page |]; [| exact Hw].
  apply wp_bind, wp_new_page.
  apply wp_bind. unfold show_pdf_page. apply wp_bind, wp_call_unit.
  world_simpl.
  assert (Hshow : forall i o,
    follows ((calls w ++
                [(CNewPage (Rect_width (rect page)) (Rect_height (rect page)), None)]) ++
             [(CShowPdfPage i (rect page) k, o)])).
  { intros i o. apply follows_call; [reflexivity |].
    apply follows_call; [reflexivity | exact Hw]. }
  destruct (lib_show_pdf_page lib (rect page) k) as [e |]; [apply Hshow |].
  unfold draw. apply wp_modify. world_simpl.
  destruct (get_images page) as [| img images]; [apply wp_ret, Hshow |].
  apply (wp_for_each_const (img :: images) _ (fun w' => follows (calls w'))).
  - intros x w' _ Hw'. apply process_image_follows. exact Hw'.
  - apply Hshow.
Qed.

Lemma compress_pdf_follows (w : World) :
  follows (calls w) ->
  wp (compress_pdf lib self)
     (fun _ w' => follows (calls w')) (fun _ _ => False) w.
Proof.
  intros Hw. unfold compress_pdf. apply wp_try_except.
  apply wp_mono with (Q := fun _ w' => follows (calls w'))
                     (E := fun _ w' => follows (calls w'));
    [| auto | intros e w' Hw'; repeat wp_step; world_simpl; exact Hw'].
  unfold compress_pdf_body.
  apply wp_bind, wp_path_exists. apply wp_bind.
  destruct (bool_decide _); [apply wp_ret | apply wp_raise; exact Hw].
  apply wp_bind, wp_logger_info.
  apply wp_bind. unfold fitz_open. apply wp_bind, wp_call_value.
  assert (Hopen : forall o, follows (calls w ++ [(CFitzOpen (input_path self), o)]))
    by (intros o; apply follows_call; [reflexivity | exact Hw]).
  destruct (lib_fitz_open lib (input_path self)) as [e | doc]; [apply Hopen |].
  apply wp_bind, wp_modify, wp_ret.
  apply wp_bind. unfold fitz_new. apply wp_bind, wp_call_unit, wp_modify.
  apply wp_bind. world_simpl.
  apply wp_mono with (Q := fun _ w' => follows (calls w'))
                     (E := fun _ w' => follows (calls w')); [| | auto].
  - apply (wp_for_each_const _ _ (fun w' => follows (calls w'))).
    + intros k w' _ Hw'. apply process_page_follows. exact Hw'.
    + world_simpl. apply follows_call; [reflexivity | apply Hopen].
  - intros u w1 Hw1. apply wp_bind, wp_save.
    assert (Hsaved : forall o,
      follows (calls w1 ++ [(CSave (out_pages w1) (output_path self) 4 true true, o)]))
      by (intros o; apply follows_call; [reflexivity | exact Hw1]).
    destruct (lib_save lib (out_pages w1) (output_path self)) as [n | e [m |]];
      world_simpl; try apply Hsaved.
    repeat wp_step; world_simpl; try apply Hsaved.
    apply follows_call; [reflexivity |].
    apply follows_call; [reflexivity | apply Hsaved].
Qed.

(** X13. In the calls of a run, every [insert_image] comes right after a
    [get_image_bbox] that returned the rectangle it is given, which itself
    comes right after a Pillow encode that returned the bytes it is given;
    the rectangle is truthy.  So what is inserted is always the answer of the
    encode just made, on the rectangle just obtained, and never anything
    else. *)
Theorem inserts_come_from_the_encoder (files : gmap string Z)
    (i k : nat) (r : Rect F) (stream : bytes) (o : option exn) :
  let trace := calls (snd (compress_pdf lib self (initial_world files))) in
  trace !! i = Some (CInsertImage k r stream, o) ->
  Rect_bool r = true /\
  exists j im p pno img,
    i = S (S j) /\
    trace !! j = Some (CImageSave im p, None) /\
    lib_Image_save lib im p = inr stream /\
    trace !! S j = Some (CGetImageBbox pno img, None) /\
    lib_get_image_bbox lib pno img = inr r.
Proof.
  intros trace Hi.
  assert (Hnone : follows (calls (initial_world files)))
    by (intros ? ? ? ? ? Hnil; discriminate Hnil).
  pose proof (compress_pdf_follows (initial_world files) Hnone) as Hwp.
  unfold wp in Hwp. subst trace.
  destruct (compress_pdf lib self (initial_world files)) as [[e | b] w'];
    [contradiction |].
  exact (Hwp i k r stream o Hi).
Qed.

(** X14. When the input exists but [fitz.open] raises, the run returns
    [False] having made that one library call: no handle is open, no output
    document exists, storage is unchanged, and the log holds the start
    notice and the error. *)
Theorem open_error_is_fatal (e : exn) (w : World) :
  is_Some (fs w !! input_path self) ->
  lib_fitz_open lib (input_path self) = inl e ->
  exists w',
    compress_pdf lib self w = (inr false, w') /\
    calls w' = calls w ++ [(CFitzOpen (input_path self), Some e)] /\
    open_docs w' = open_docs w /\
    out_pages w' = out_pages w /\
    fs w' = fs w /\
    log w' = log w ++ [(INFO, StartingCompression (input_path self));
                       (ERROR, ErrorCompressingPDF e)].
Proof.
  intros Hexists Hopen.
  assert (Hwp :
    wp (compress_pdf lib self)
       (fun b w' =>
          b = false /\
          calls w' = calls w ++ [(CFitzOpen (input_path self), Some e)] /\
          open_docs w' = open_docs w /\ out_pages w' = out_pages w /\
          fs w' = fs w /\
          log w' = log w ++ [(INFO, StartingCompression (input_path self));
                             (ERROR, ErrorCompressingPDF e)])
       (fun _ _ => False) w).
  { unfold compress_pdf. apply wp_try_except. unfold compress_pdf_body.
    apply wp_bind, wp_path_exists.
    rewrite bool_decide_eq_true_2 by exact Hexists.
    apply wp_bind, wp_ret. apply wp_bind, wp_logger_info.
    apply wp_bind. unfold fitz_open. apply wp_bind, wp_call_value.
    rewrite Hopen.
    apply wp_bind, wp_logger_error, wp_ret. world_simpl.
    rewrite <- app_assoc. repeat split. }
  unfold wp in Hwp.
  destruct (compress_pdf lib self w) as [[e' | b] w']; [contradiction |].
  destruct Hwp as (-> & Hrest). exists w'. split; [reflexivity | exact Hrest].
Qed.

End Inserts.

(** ** Concrete runs of the further properties *)

Lemma handles_closed_on_success_witness :
  open_docs Demo.start = [] /\
  open_docs (snd (compress_pdf Demo.library Demo.compressor Demo.start)) = [].
Proof.
  split; [reflexivity |].
  apply (handles_closed_on_success Demo.library Demo.compressor Demo.start).
  - vm_compute. reflexivity.
  - reflexivity.
Defined.

Lemma handles_open_after_failure_witness :
  open_docs (snd (compress_pdf Demo.save_fails Demo.compressor Demo.start)) =
  open_docs Demo.start ++ [SourceDocument; OutputDocument].
Proof.
  apply (handles_open_after_failure Demo.save_fails Demo.compressor Demo.doc
           Demo.start).
  - vm_compute. reflexivity.
  - exists 1000%Z. vm_compute. reflexivity.
  - reflexivity.
Defined.

Lemma only_output_path_written_witness :
  fs (snd (compress_pdf Demo.library Demo.compressor Demo.start)) !! "in.pdf" =
  fs Demo.start !! "in.pdf".
Proof.
  apply (only_output_path_written Demo.library Demo.compressor Demo.start "in.pdf").
  discriminate.
Defined.

Lemma in_place_reports_one_size_witness :
  exists compressed_size l pages,
    lib_save Demo.library pages "in.pdf" = Saved compressed_size /\
    fs (snd (compress_pdf Demo.library Demo.in_place Demo.start)) !! "in.pdf"
      = Some compressed_size /\
    log (snd (compress_pdf Demo.library Demo.in_place Demo.start)) =
      l ++ [(INFO, CompressionRatio
                     (fmul (fsub (float_of_int 1)
                                 (int_truediv compressed_size compressed_size))
                           (float_of_int 100)))].
Proof.
  apply (in_place_reports_one_size Demo.library Demo.in_place Demo.start).
  - reflexivity.
  - vm_compute. reflexivity.
Defined.

Lemma extract_exception_is_fatal_witness :
  exists w',
    compress_pdf Demo.extract_fails Demo.compressor Demo.start = (inr false, w') /\
    fs w' = fs Demo.start /\
    Forall (fun c => is_save c = false) (calls_since Demo.start w').
Proof.
  apply (extract_exception_is_fatal Demo.extract_fails Demo.compressor Demo.doc 0
           (mkPage (Demo.r 0 0 612 792) [Demo.img7]) Demo.img7 Demo.bad_xref
           Demo.start).
  - exists 1000%Z. vm_compute. reflexivity.
  - reflexivity.
  - reflexivity.
  - left. reflexivity.
  - reflexivity.
Defined.

Lemma text_document_is_reproduced_witness :
  out_pages (snd (compress_pdf Demo.text_only Demo.compressor Demo.start)) =
    imap (fun i p => mkOut (Rect_width (rect p)) (Rect_height (rect p))
                       [ShownPage (rect p) i]) Demo.text_doc.
Proof.
  apply (text_document_is_reproduced Demo.text_only Demo.compressor Demo.text_doc
           Demo.start).
  - reflexivity.
  - repeat constructor.
  - vm_compute. reflexivity.
Defined.

Lemma format_hint_case_insensitive_witness :
  save_params Demo.compressor "JPG" = save_params Demo.compressor "jpg" /\
  save_params Demo.compressor "TiFf" = save_params Demo.compressor "tiff".
Proof.
  split; apply format_hint_case_insensitive; reflexivity.
Defined.

Lemma progress_logged_per_page_witness :
  progress_log (log (snd (compress_pdf Demo.library Demo.compressor Demo.start))) =
  [(1, 2); (2, 2)].
Proof.
  apply (progress_logged_per_page Demo.library Demo.compressor Demo.doc Demo.start).
  - reflexivity.
  - vm_compute. reflexivity.
Defined.

Lemma inserts_come_from_the_encoder_witness :
  let trace := calls (snd (compress_pdf Demo.library Demo.compressor
                             (initial_world Demo.files))) in
  Rect_bool (Demo.r 10 10 110 60) = true /\
  exists j im p pno img,
    8 = S (S j) /\
    trace !! j = Some (CImageSave im p, None) /\
    lib_Image_save Demo.library im p = inr Demo.encoded /\
    trace !! S j = Some (CGetImageBbox pno img, None) /\
    lib_get_image_bbox Demo.library pno img = inr (Demo.r 10 10 110 60).
Proof.
  apply (inserts_come_from_the_encoder Demo.library Demo.compressor Demo.files
           8 0 (Demo.r 10 10 110 60) Demo.encoded None).
  vm_compute. reflexivity.
Defined.

Lemma open_error_is_fatal_witness :
  exists w',
    compress_pdf Demo.unreadable Demo.compressor Demo.start = (inr false, w') /\
    calls w' = calls Demo.start ++ [(CFitzOpen "in.pdf", Some Demo.cannot_open)] /\
    open_docs w' = open_docs Demo.start /\
    out_pages w' = out_pages Demo.start /\
    fs w' = fs Demo.start /\
    log w' = log Demo.start ++ [(INFO, StartingCompression "in.pdf");
                                (ERROR, ErrorCompressingPDF Demo.cannot_open)].
Proof.
  apply (open_error_is_fatal Demo.unreadable Demo.compressor Demo.cannot_open
           Demo.start).
  - exists 1000%Z. vm_compute. reflexivity.
  - reflexivity.
Defined.

Section Fetching.

Context {F : Type} `{PyFloat F} {casing : PyStr}.
Variable lib : Library F.
Variable self : PDFCompressor.

Abbreviation World := (World F).

Lemma fetched_xrefs_app (cs cs' : list (Call F * option exn)) :
  fetched_xrefs (cs ++ cs') = fetched_xrefs cs ++ fetched_xrefs cs'.
Proof. apply omap_app. Qed.

Lemma fetched_xrefs_pillow (q : Z) (new : list (Call F * option exn)) :
  Forall (fun c => pillow_call q (fst c)) new -> fetched_xrefs new = [].
Proof.
  induction 1 as [| [c o] new Hc _ IH]; [reflexivity |].
  unfold fetched_xrefs in *. destruct c; simpl in *; try contradiction; exact IH.
Qed.

(** An image that is processed to the end is fetched once. *)
Lemma process_image_fetches (page_num output_page : nat) (img : ImgItem) (w : World) :
  wp (process_image lib self page_num output_page img)
     (fun _ w' => fetched_xrefs (calls w') = fetched_xrefs (calls w) ++ [img_xref img])
     (fun _ _ => True) w.
Proof.
  unfold process_image.
  apply wp_bind. unfold extract_image. apply wp_call_value.
  destruct (lib_extract_image lib (img_xref img)) as [e | [d |]];
    [exact I | | apply wp_ret; world_simpl; apply fetched_xrefs_app].
  apply wp_bind.
  eapply wp_mono; [apply compress_image_frame | | intros ? ? []].
  intros compressed w1 (_ & _ & _ & new & Hnew & Hpil). world_simpl.
  assert (Hw1 : fetched_xrefs (calls w1) = fetched_xrefs (calls w) ++ [img_xref img]).
  { rewrite Hnew, !fetched_xrefs_app, (fetched_xrefs_pillow _ _ Hpil).
    apply app_nil_r. }
  destruct compressed as [stream |]; [| apply wp_ret, Hw1].
  repeat wp_step; world_simpl; trivial;
    rewrite ?fetched_xrefs_app, Hw1; simpl; rewrite ?app_nil_r; reflexivity.
Qed.

Lemma images_loop_fetches (page_num output_page : nat) (images : list ImgItem) (w : World) :
  wp (for_each images (process_image lib self page_num output_page))
     (fun _ w' => fetched_xrefs (calls w') =
                  fetched_xrefs (calls w) ++ map img_xref images)
     (fun _ _ => True) w.
Proof.
  apply wp_mono with
    (Q := fun _ w' => fetched_xrefs (calls w') =
                      fetched_xrefs (calls w) ++ map img_xref images)
    (E := fun _ _ => True); [| auto | auto].
  apply (wp_for_each images _
           (fun done w' => fetched_xrefs (calls w') =
                           fetched_xrefs (calls w) ++ map img_xref done)
           (fun _ _ => True)).
  - intros done img rest w' _ Hdone.
    eapply wp_mono; [apply process_image_fetches | | auto].
    intros u w'' Hfetch. cbv beta in Hfetch.
    rewrite Hfetch, Hdone, map_app, <- app_assoc. reflexivity.
  - simpl. rewrite app_nil_r. reflexivity.
Qed.

Lemma process_page_fetches (doc : SourceDoc F) (total_pages k : nat)
    (page : SourcePage F) (w : World) :
  doc !! k = Some page ->
  wp (process_page lib self doc total_pages k)
     (fun _ w' => fetched_xrefs (calls w') =
                  fetched_xrefs (calls w) ++ map img_xref (get_images page))
     (fun _ _ => True) w.
Proof.
  intros Hpage. unfold process_page.
  apply wp_bind, wp_logger_info.
  apply wp_bind, wp_getitem. rewrite Hpage.
  apply wp_bind, wp_new_page.
  apply wp_bind. unfold show_pdf_page. apply wp_bind, wp_call_unit.
  destruct (lib_show_pdf_page lib (rect page) k) as [e |]; [exact I |].
  unfold draw. apply wp_modify.
  match goal with |- wp _ _ _ ?w2 => set (w_s := w2) end.
  assert (Hw_s : fetched_xrefs (calls w_s) = fetched_xrefs (calls w)).
  { subst w_s. world_simpl. rewrite !fetched_xrefs_app. simpl.
    rewrite !app_nil_r. reflexivity. }
  clearbody w_s.
  destruct (get_images page) as [| img images] eqn:Himages.
  - apply wp_ret. simpl. rewrite app_nil_r. exact Hw_s.
  - eapply wp_mono; [apply images_loop_fetches | | auto].
    intros u w' Hloop. cbv beta in Hloop. rewrite Hloop, Hw_s. reflexivity.
Qed.

Lemma listed_xrefs_snoc (doc : SourceDoc F) (k : nat) (page : SourcePage F) :
  doc !! k = Some page ->
  listed_xrefs (take (S k) doc) =
  listed_xrefs (take k doc) ++ map img_xref (get_images page).
Proof.
  intros Hpage. unfold listed_xrefs.
  rewrite (take_S_r _ _ _ Hpage), map_app, concat_app. simpl.
  rewrite app_nil_r. reflexivity.
Qed.

Lemma compress_pdf_body_fetches (doc : SourceDoc F) (w : World) :
  lib_fitz_open lib (input_path self) = inr doc ->
  wp (compress_pdf_body lib self)
     (fun _ w' => fetched_xrefs (calls w') =
                  fetched_xrefs (calls w) ++ listed_xrefs doc)
     (fun _ _ => True) w.
Proof.
  intros Hopen. unfold compress_pdf_body.
  apply wp_bind, wp_path_exists. apply wp_bind.
  destruct (bool_decide _); [apply wp_ret | exact I].
  apply wp_bind, wp_logger_info.
  apply wp_bind. unfold fitz_open. apply wp_bind, wp_call_value.
  rewrite Hopen. apply wp_bind, wp_modify, wp_ret.
  apply wp_bind. unfold fitz_new. apply wp_bind, wp_call_unit, wp_modify.
  apply wp_bind.
  match goal with |- wp _ _ _ ?wn => set (w_n := wn) end.
  assert (Hw_n : fetched_xrefs (calls w_n) = fetched_xrefs (calls w)).
  { subst w_n. world_simpl. rewrite !fetched_xrefs_app. simpl.
    rewrite !app_nil_r. reflexivity. }
  clearbody w_n.
  apply wp_mono with
    (Q := fun _ w' =>
            fetched_xrefs (calls w') =
            fetched_xrefs (calls w) ++
            listed_xrefs (take (length (seq 0 (length doc))) doc))
    (E := fun _ _ => True); [| | auto].
  - apply (wp_for_each _ _
             (fun done w' =>
                fetched_xrefs (calls w') =
                fetched_xrefs (calls w) ++ listed_xrefs (take (length done) doc))
             (fun _ _ => True)).
    + intros done k rest w' Hseq Hdone.
      destruct (seq_split _ _ _ _ Hseq) as [-> Hlt].
      destruct (lookup_lt_is_Some_2 doc _ Hlt) as [page Hpage].
      eapply wp_mono; [apply process_page_fetches; exact Hpage | | auto].
      intros u w'' Hfetch. cbv beta in Hfetch.
      rewrite length_app. simpl. rewrite Nat.add_1_r.
      rewrite (listed_xrefs_snoc _ _ _ Hpage), Hfetch, Hdone, <- app_assoc.
      reflexivity.
    + simpl. rewrite take_0. unfold listed_xrefs. simpl.
      rewrite app_nil_r. exact Hw_n.
  - intros u w1 Hloop. rewrite length_seq, firstn_all in Hloop.
    apply wp_bind, wp_save.
    destruct (lib_save lib (out_pages w1) (output_path self)) as [n | e [m |]];
      try exact I.
    apply wp_bind, wp_getsize. world_simpl.
    destruct (<[output_path self:=n]> (fs w1) !! input_path self); [| exact I].
    apply wp_bind, wp_getsize. world_simpl. rewrite lookup_insert_eq.
    repeat wp_step; trivial. world_simpl.
    rewrite !fetched_xrefs_app. simpl. rewrite !app_nil_r. exact Hloop.
Qed.

(** X15. A run that returns [True] has handed to [extract_image] the xref of
    every image the document lists, page by page and in the listed order,
    each listing once (an image listed twice is fetched twice). *)
Theorem every_listed_image_is_fetched (doc : SourceDoc F) (w w' : World) :
  lib_fitz_open lib (input_path self) = inr doc ->
  compress_pdf lib self w = (inr true, w') ->
  fetched_xrefs (calls_since w w') =
  concat (map (fun p => map img_xref (get_images p)) doc).
Proof.
  intros Hopen Hrun.
  apply (compress_pdf_true lib self) in Hrun.
  pose proof (wp_run _ _ _ _ _ _ (compress_pdf_body_effects lib self w) Hrun)
    as (_ & _ & _ & new & Hnew & _).
  pose proof (wp_run _ _ _ _ _ _ (compress_pdf_body_fetches doc w Hopen) Hrun)
    as Hfetch.
  cbv beta in Hfetch.
  rewrite (calls_since_app _ _ _ Hnew).
  rewrite Hnew, fetched_xrefs_app in Hfetch.
  exact (app_inv_head _ _ _ Hfetch).
Qed.

End Fetching.

Section SaveErrors.

Context {F : Type} `{PyFloat F} {casing : PyStr}.
Variable lib : Library F.
Variable self : PDFCompressor.

Abbreviation World := (World F).

Lemma no_save_error (new : list (Call F * option exn)) :
  Forall (fun c => is_save c = false) new -> omap save_error new = [].
Proof.
  induction 1 as [| [c o] new Hc _ IH]; [reflexivity |].
  destruct c; try discriminate Hc; exact IH.
Qed.

(** The [try] block makes no failing [save] when it completes, and when it
    raises after a failing [save], it raises that [save]'s exception. *)
Lemma compress_pdf_body_save_error (w : World) :
  wp (compress_pdf_body lib self)
     (fun _ w' => exists new, calls w' = calls w ++ new /\
                              omap save_error new = [])
     (fun e0 w' => exists new, calls w' = calls w ++ new /\
                               (omap save_error new = [] \/
                                omap save_error new = [e0]))
     w.
Proof.
  unfold compress_pdf_body.
  apply wp_bind, wp_path_exists. apply wp_bind.
  destruct (bool_decide (is_Some (fs w !! input_path self))).
  2:{ apply wp_raise. exists []. rewrite app_nil_r. auto. }
  apply wp_ret. apply wp_bind, wp_logger_info.
  apply wp_bind. unfold fitz_open. apply wp_bind, wp_call_value.
  destruct (lib_fitz_open lib (input_path self)) as [e | doc].
  { world_simpl. eexists. split; [reflexivity | auto]. }
  apply wp_bind, wp_modify, wp_ret.
  apply wp_bind. unfold fitz_new. apply wp_bind, wp_call_unit, wp_modify.
  apply wp_bind.
  match goal with |- wp _ _ _ ?wn => set (w_n := wn) end.
  assert (Hcalls_n : calls w_n =
            (calls w ++ [(CFitzOpen (input_path self), None)]) ++ [(CFitzNew, None)])
    by reflexivity.
  clearbody w_n.
  eapply wp_mono; [apply (pages_loop_untouched lib self doc _ _ w_n w_n),
                     untouched_refl | |].
  2:{ intros e w_l (_ & _ & new & Hnew & Hno).
      rewrite Hnew, Hcalls_n, <- !app_assoc.
      eexists. split; [reflexivity |].
      left. simpl. apply no_save_error, Hno. }
  intros u w_l (_ & _ & new & Hnew & Hno).
  pose proof (no_save_error _ Hno) as Hnone.
  apply wp_bind, wp_save.
  destruct (lib_save lib (out_pages w_l) (output_path self)) as [n | e [m |]].
  - apply wp_bind, wp_getsize. world_simpl.
    destruct (<[output_path self:=n]> (fs w_l) !! input_path self) as [o |].
    2:{ rewrite Hnew, Hcalls_n, <- !app_assoc.
        eexists. split; [reflexivity |].
        left. simpl. rewrite omap_app, Hnone. reflexivity. }
    apply wp_bind, wp_getsize. world_simpl. rewrite lookup_insert_eq.
    apply wp_bind, wp_truediv.
    { intros _. world_simpl. rewrite Hnew, Hcalls_n, <- !app_assoc.
      eexists. split; [reflexivity |].
      left. simpl. rewrite omap_app, Hnone. reflexivity. }
    intros _.
    apply wp_bind, wp_logger_info.
    apply wp_bind, wp_truediv; [discriminate | intros _].
    apply wp_bind, wp_logger_info.
    apply wp_bind, wp_truediv; [discriminate | intros _].
    apply wp_bind, wp_logger_info.
    apply wp_bind, wp_logger_info.
    apply wp_bind, wp_close. apply wp_bind, wp_close.
    apply wp_ret. world_simpl. rewrite Hnew, Hcalls_n, <- !app_assoc.
    eexists. split; [reflexivity |].
    simpl. rewrite !omap_app, Hnone. reflexivity.
  - world_simpl. rewrite Hnew, Hcalls_n, <- !app_assoc.
    eexists. split; [reflexivity |].
    right. simpl. rewrite omap_app, Hnone. reflexivity.
  - world_simpl. rewrite Hnew, Hcalls_n, <- !app_assoc.
    eexists. split; [reflexivity |].
    right. simpl. rewrite omap_app, Hnone. reflexivity.
Qed.

(** X16. An exception raised by [save] is fatal: a run in which a [save]
    call raised [e] returns [False], and its last log record is the error
    record of that very exception. *)
Theorem save_exception_is_fatal (w w' : World) (b : bool) (e : exn) :
  compress_pdf lib self w = (inr b, w') ->
  In e (omap save_error (calls_since w w')) ->
  b = false /\
  exists l, log w' = l ++ [(ERROR, ErrorCompressingPDF e)].
Proof.
  intros Hrun Hin.
  destruct (compress_pdf_cases lib self _ _ _ Hrun)
    as [[_ Hbody] | [-> (e0 & w1 & Hbody & ->)]].
  - pose proof (wp_run _ _ _ _ _ _ (compress_pdf_body_save_error w) Hbody)
      as (new & Hnew & Hnone).
    rewrite (calls_since_app _ _ _ Hnew), Hnone in Hin. destruct Hin.
  - pose proof (wp_run _ _ _ _ _ _ (compress_pdf_body_save_error w) Hbody)
      as (new & Hnew & Hsave).
    cbv beta in Hnew, Hsave. split; [reflexivity |].
    assert (Hsince : calls_since w (add_log (ERROR, ErrorCompressingPDF e0) w1) = new)
      by (apply calls_since_app; exact Hnew).
    rewrite Hsince in Hin.
    destruct Hsave as [Hsave | Hsave]; rewrite Hsave in Hin; simpl in Hin.
    + destruct Hin.
    + destruct Hin as [<- | []]. exists (log w1). reflexivity.
Qed.

End SaveErrors.

Lemma every_listed_image_is_fetched_witness :
  fetched_xrefs
    (calls_since Demo.start
       (snd (compress_pdf Demo.library Demo.compressor Demo.start))) =
  concat (map (fun p => map img_xref (get_images p)) Demo.doc).
Proof.
  apply (every_listed_image_is_fetched Demo.library Demo.compressor Demo.doc).
  - reflexivity.
  - vm_compute. reflexivity.
Defined.

Lemma save_exception_is_fatal_witness :
  false = false /\
  exists l,
    log (snd (compress_pdf Demo.save_fails Demo.compressor Demo.start)) =
    l ++ [(ERROR, ErrorCompressingPDF Demo.cannot_write)].
Proof.
  apply (save_exception_is_fatal Demo.save_fails Demo.compressor Demo.start).
  - vm_compute. reflexivity.
  - vm_compute. left. reflexivity.
Defined.

(** ** Image errors inside a run *)

Section Absorption.

Context {F : Type} `{PyFloat F} {casing : PyStr}.
Variable lib : Library F.
Variable self : PDFCompressor.

Abbreviation World := (World F).

(** *** Runs in which PyMuPDF does not raise *)

Lemma process_image_succeeds (doc : SourceDoc F) (k : nat) (page : SourcePage F)
    (output_page : nat) (img : ImgItem) (w : World) :
  pymupdf_succeeds lib self doc ->
  doc !! k = Some page -> In img (get_images page) ->
  wp (process_image lib self k output_page img)
     (fun _ _ => True) (fun _ _ => False) w.
Proof.
  intros [_ _ Hextract Hbbox Hinsert _] Hpage Himg. unfold process_image.
  apply wp_bind. unfold extract_image. apply wp_call_value.
  destruct (Hextract k page img Hpage Himg) as [d ->].
  destruct d as [d |]; [| apply wp_ret; exact I].
  apply wp_bind.
  eapply wp_mono;
    [exact (wp_conj _ _ _ _ _ _
              (compress_image_frame lib self (bi_image d) (bi_ext d) _)
              (compress_image_spec lib self (bi_image d) (bi_ext d) _)) |
     | intros ? ? [[] _]].
  intros [stream |] w' [_ Hspec]; [| apply wp_ret; exact I].
  destruct Hspec as (new & _ & Hsave & _ & _ & Hsome).
  destruct (Hsome stream eq_refl) as [im Hin].
  destruct (Hsave _ _ _ Hin) as (_ & b & Hlib & Hb & _).
  injection Hb as <-.
  apply wp_bind. unfold get_image_bbox. apply wp_call_value.
  destruct (Hbbox k page img Hpage Himg) as [r Hr]. rewrite Hr.
  destruct (Rect_bool r) eqn:Htruthy; [| apply wp_ret; exact I].
  unfold insert_image. apply wp_bind, wp_call_unit.
  rewrite (Hinsert k page img r im _ stream Hpage Himg Hr Htruthy Hlib).
  unfold draw. apply wp_modify. exact I.
Qed.

Lemma process_page_succeeds (doc : SourceDoc F) (total_pages k : nat) (w : World) :
  pymupdf_succeeds lib self doc -> k < length doc ->
  wp (process_page lib self doc total_pages k)
     (fun _ _ => True) (fun _ _ => False) w.
Proof.
  intros Hok Hk. unfold process_page.
  destruct (lookup_lt_is_Some_2 doc k Hk) as [page Hpage].
  apply wp_bind, wp_logger_info.
  apply wp_bind, wp_getitem. rewrite Hpage.
  apply wp_bind, wp_new_page.
  apply wp_bind. unfold show_pdf_page.
  apply wp_bind, wp_call_unit. rewrite (ok_show _ _ _ Hok k page Hpage).
  unfold draw. apply wp_modify.
  destruct (get_images page) as [| img images] eqn:Himages;
    [apply wp_ret; exact I |].
  apply (wp_for_each_const (img :: images) _ (fun _ => True)); [| exact I].
  intros x w' Hx _.
  apply (process_image_succeeds doc k page); [exact Hok | exact Hpage |].
  rewrite Himages. exact Hx.
Qed.

(** With the input in place and of non-zero size, such a run completes: it
    returns [True], the output document matches the source page by page, and
    these pages were saved to the output path. *)
Lemma compress_pdf_body_succeeds (doc : SourceDoc F) (n : Z) (w : World) :
  pymupdf_succeeds lib self doc ->
  fs w !! input_path self = Some n -> n <> 0%Z ->
  input_path self <> output_path self ->
  wp (compress_pdf_body lib self)
     (fun b w' =>
        b = true /\ pages_match doc (out_pages w') /\
        exists new size,
          calls w' = calls w ++ new /\
          In (CSave (out_pages w') (output_path self) 4 true true, None) new /\
          lib_save lib (out_pages w') (output_path self) = Saved size /\
          fs w' !! output_path self = Some size)
     (fun _ _ => False) w.
Proof.
  intros Hok Hin Hn Hpaths. unfold compress_pdf_body.
  apply wp_bind, wp_path_exists. rewrite Hin.
  rewrite bool_decide_eq_true_2 by eauto.
  apply wp_bind, wp_ret. apply wp_bind, wp_logger_info.
  apply wp_bind. unfold fitz_open. apply wp_bind, wp_call_value.
  rewrite (ok_open _ _ _ Hok).
  apply wp_bind, wp_modify, wp_ret.
  apply wp_bind. unfold fitz_new. apply wp_bind, wp_call_unit, wp_modify.
  apply wp_bind.
  match goal with |- wp _ _ _ ?wn => set (w_n := wn) end.
  assert (Hfs_n : fs w_n = fs w) by reflexivity.
  assert (Hout_n : out_pages w_n = []) by reflexivity.
  assert (Hcalls_n : calls w_n =
            (calls w ++ [(CFitzOpen (input_path self), None)]) ++ [(CFitzNew, None)])
    by reflexivity.
  clearbody w_n.
  eapply wp_mono;
    [exact (wp_conj _ _ _ _ _ _
              (wp_conj _ _ _ _ _ _
                 (pages_loop_keeps lib self (fun _ => True) (fun _ _ _ => I)
                    doc w_n Hout_n
                    (Forall_true _ _ (fun _ => I)))
                 (pages_loop_untouched lib self doc _ _ w_n w_n
                    (untouched_refl w_n)))
              (wp_for_each_const (seq 0 (length doc))
                 (process_page lib self doc (length doc)) (fun _ => True)
                 (fun _ _ => False) w_n
                 (fun k w' Hk _ =>
                    process_page_succeeds doc (length doc) k w' Hok
                      (proj2 (proj1 (in_seq _ _ _) Hk)))
                 I)) | | intros ? ? [_ []]].
  intros u w_l [[[Hmatch _] (Hfs & _ & new & Hnew & _)] _].
  destruct (ok_save _ _ _ Hok (out_pages w_l) Hmatch) as [m Hm].
  apply wp_bind, wp_save. rewrite Hm.
  apply wp_bind, wp_getsize. world_simpl.
  rewrite lookup_insert_ne by congruence. rewrite Hfs, Hfs_n, Hin.
  apply wp_bind, wp_getsize. world_simpl. rewrite lookup_insert_eq.
  apply wp_bind, wp_truediv; [contradiction | intros _].
  apply wp_bind, wp_logger_info.
  apply wp_bind, wp_truediv; [discriminate | intros _].
  apply wp_bind, wp_logger_info.
  apply wp_bind, wp_truediv; [discriminate | intros _].
  apply wp_bind, wp_logger_info.
  apply wp_bind, wp_logger_info.
  apply wp_bind, wp_close. apply wp_bind, wp_close.
  apply wp_ret. world_simpl.
  split; [reflexivity |]. split; [exact Hmatch |].
  rewrite Hnew, Hcalls_n, <- !app_assoc.
  eexists. exists m. split; [reflexivity |].
  split; [| split; [exact Hm | apply lookup_insert_eq]].
  simpl. do 2 right. apply in_or_app. right. left. reflexivity.
Qed.

(** *** What a run adds to the log

    In [extends Q w0 w], [Q] is kept when more records follow. *)

Section Extends.

Variable Q : list (Level * Message F) -> Prop.
Hypothesis Q_app : forall l l', Q l -> Q (l ++ l').

Lemma extends_log (w0 w : World) (r : Level * Message F) :
  extends Q w0 w -> extends Q w0 (add_log r w).
Proof.
  intros (l & Hl & Hq). exists (l ++ [r]). split; [| apply Q_app, Hq].
  simpl. rewrite Hl, app_assoc. reflexivity.
Qed.

Lemma extends_same_log (w0 w w' : World) :
  log w' = log w -> extends Q w0 w -> extends Q w0 w'.
Proof.
  intros Hlog (l & Hl & Hq). exists l. split; [congruence | exact Hq].
Qed.

Lemma compress_image_extends (image_bytes : bytes) (image_ext : string) (w0 w : World) :
  extends Q w0 w ->
  wp (compress_image lib self image_bytes image_ext)
     (fun _ w' => extends Q w0 w') (fun _ _ => False) w.
Proof.
  intros Hext. unfold compress_image.
  repeat wp_step;
    repeat first [ apply extends_log
                 | exact Hext
                 | apply (extends_same_log w0 w); [reflexivity |] ].
Qed.

Lemma process_image_extends (page_num output_page : nat) (img : ImgItem) (w0 w : World) :
  extends Q w0 w ->
  wp (process_image lib self page_num output_page img)
     (fun _ w' => extends Q w0 w') (fun _ _ => True) w.
Proof.
  intros Hext. unfold process_image.
  apply wp_bind. unfold extract_image. apply wp_call_value.
  destruct (lib_extract_image lib (img_xref img)) as [e | [d |]]; [exact I | |].
  2:{ apply wp_ret. apply (extends_same_log w0 w); [reflexivity | exact Hext]. }
  apply wp_bind.
  eapply wp_mono;
    [apply (compress_image_extends _ _ w0);
     apply (extends_same_log w0 w); [reflexivity | exact Hext]
    | | intros ? ? []].
  intros r w' Hext'. cbv beta in Hext'.
  destruct r as [stream |]; [| apply wp_ret; exact Hext'].
  repeat wp_step; first [exact I | exact Hext'].
Qed.

Lemma process_page_extends (doc : SourceDoc F) (total_pages k : nat) (w0 w : World) :
  extends Q w0 w ->
  wp (process_page lib self doc total_pages k)
     (fun _ w' => extends Q w0 w') (fun _ _ => True) w.
Proof.
  intros Hext. unfold process_page.
  apply wp_bind, wp_logger_info.
  apply wp_bind, wp_getitem.
  destruct (doc !! k) as [page |]; [| exact I].
  apply wp_bind, wp_new_page.
  apply wp_bind. unfold show_pdf_page. apply wp_bind, wp_call_unit.
  destruct (lib_show_pdf_page lib (rect page) k) as [e |]; [exact I |].
  unfold draw. apply wp_modify.
  match goal with |- wp _ _ _ ?w2 => set (w_s := w2) end.
  assert (Hext_s : extends Q w0 w_s).
  { apply (extends_same_log w0 (add_log (INFO, ProcessingPage (k + 1) total_pages) w));
      [reflexivity | apply extends_log, Hext]. }
  clearbody w_s.
  destruct (get_images page) as [| img images]; [apply wp_ret; exact Hext_s |].
  apply (wp_for_each_const (img :: images) _ (fun w' => extends Q w0 w'));
    [| exact Hext_s].
  intros x w' _ Hext'. apply process_image_extends. exact Hext'.
Qed.

End Extends.

(** A loop reaches the element [x0]: if every body keeps [Pre] and keeps
    [Post], and the body of [x0] turns [Pre] into [Post], the loop turns
    [Pre] into [Post]. *)
Lemma wp_for_each_reaches {A} (body : A -> M F unit) (x0 : A)
    (Pre Post : World -> Prop) :
  (forall x w, Pre w -> wp (body x) (fun _ w' => Pre w') (fun _ _ => True) w) ->
  (forall x w, Post w -> wp (body x) (fun _ w' => Post w') (fun _ _ => True) w) ->
  (forall w, Pre w -> wp (body x0) (fun _ w' => Post w') (fun _ _ => True) w) ->
  forall xs w, In x0 xs -> Pre w ->
  wp (for_each xs body) (fun _ w' => Post w') (fun _ _ => True) w.
Proof.
  intros Hpre Hpost Hreach.
  induction xs as [| x xs IH]; intros w Hin Hw; [destruct Hin |].
  simpl. apply wp_bind.
  destruct Hin as [-> | Hin].
  - eapply wp_mono; [apply (Hreach w Hw) | | auto].
    intros u w' Hw'. cbv beta in Hw'.
    apply (wp_for_each_const xs body Post); [| exact Hw'].
    intros y w'' _. apply Hpost.
  - eapply wp_mono; [apply (Hpre x w Hw) | | auto].
    intros u w' Hw'. apply IH; assumption.
Qed.

Lemma in_keeps (x : Level * Message F) (l l' : list (Level * Message F)) :
  In x l -> In x (l ++ l').
Proof. intros Hin. apply in_or_app. left. exact Hin. Qed.

(** The page of a failing image logs the error of that image. *)
Lemma process_page_logs (doc : SourceDoc F) (total_pages k : nat)
    (page : SourcePage F) (img : ImgItem) (d : BaseImage) (e : exn) (w0 w : World) :
  doc !! k = Some page -> In img (get_images page) ->
  lib_extract_image lib (img_xref img) = inr (Some d) ->
  pillow_fails lib self (bi_image d) (bi_ext d) e ->
  extends (fun _ => True) w0 w ->
  wp (process_page lib self doc total_pages k)
     (fun _ w' => extends (In (ERROR, ErrorCompressingImage e)) w0 w')
     (fun _ _ => True) w.
Proof.
  intros Hpage Himg Hextract Hfail Hext.
  pose proof (process_page_extends (fun _ => True) (fun _ _ _ => I)
                doc total_pages k w0 w Hext) as Hsame.
  unfold process_page in *.
  apply wp_bind, wp_logger_info.
  apply wp_bind, wp_getitem. rewrite Hpage.
  apply wp_bind, wp_new_page.
  apply wp_bind. unfold show_pdf_page. apply wp_bind, wp_call_unit.
  destruct (lib_show_pdf_page lib (rect page) k) as [e' |]; [exact I |].
  unfold draw. apply wp_modify.
  match goal with |- wp _ _ _ ?w2 => set (w_s := w2) end.
  assert (Hext_s : extends (fun _ => True) w0 w_s).
  { apply (extends_same_log _ w0
             (add_log (INFO, ProcessingPage (k + 1) total_pages) w));
      [reflexivity | apply extends_log; [auto | exact Hext]]. }
  clearbody w_s. clear Hsame.
  destruct (get_images page) as [| img0 images] eqn:Himages; [destruct Himg |].
  apply (wp_for_each_reaches _ img (extends (fun _ => True) w0)
           (extends (In (ERROR, ErrorCompressingImage e)) w0));
    [| | | exact Himg | exact Hext_s].
  - intros x w' Hw'. apply process_image_extends; auto.
  - intros x w' Hw'. apply process_image_extends; [apply in_keeps | exact Hw'].
  - intros w' (l & Hl & _).
    eapply wp_mono;
      [apply (process_image_absorbs lib self k _ img d e w' Hextract Hfail)
      | | intros ? ? []].
    intros u w'' (_ & _ & _ & Hlog & _).
    exists (l ++ [(ERROR, ErrorCompressingImage e)]). split.
    + rewrite Hlog, Hl, app_assoc. reflexivity.
    + apply in_or_app. right. left. reflexivity.
Qed.

Lemma compress_pdf_body_logs (doc : SourceDoc F) (k : nat) (page : SourcePage F)
    (img : ImgItem) (d : BaseImage) (e : exn) (w : World) :
  lib_fitz_open lib (input_path self) = inr doc ->
  doc !! k = Some page -> In img (get_images page) ->
  lib_extract_image lib (img_xref img) = inr (Some d) ->
  pillow_fails lib self (bi_image d) (bi_ext d) e ->
  wp (compress_pdf_body lib self)
     (fun _ w' => extends (In (ERROR, ErrorCompressingImage e)) w w')
     (fun _ _ => True) w.
Proof.
  intros Hopen Hpage Himg Hextract Hfail. unfold compress_pdf_body.
  apply wp_bind, wp_path_exists. apply wp_bind.
  destruct (bool_decide _); [apply wp_ret | exact I].
  apply wp_bind, wp_logger_info.
  apply wp_bind. unfold fitz_open. apply wp_bind, wp_call_value.
  rewrite Hopen. apply wp_bind, wp_modify, wp_ret.
  apply wp_bind. unfold fitz_new. apply wp_bind, wp_call_unit, wp_modify.
  apply wp_bind.
  match goal with |- wp _ _ _ ?wn => set (w_n := wn) end.
  assert (Hext_n : extends (fun _ => True) w w_n).
  { exists [(INFO, StartingCompression (input_path self))]. split; [reflexivity | exact I]. }
  clearbody w_n.
  assert (Hk : In k (seq 0 (length doc))).
  { apply in_seq. split; [lia |]. simpl. apply lookup_lt_is_Some. eauto. }
  eapply wp_mono;
    [apply (wp_for_each_reaches _ k (extends (fun _ => True) w)
              (extends (In (ERROR, ErrorCompressingImage e)) w));
       [| | | exact Hk | exact Hext_n] | | auto].
  - intros x w' Hw'. apply process_page_extends; auto.
  - intros x w' Hw'. apply process_page_extends; [apply in_keeps | exact Hw'].
  - intros w' Hw'.
    apply (process_page_logs doc (length doc) k page img d e w w'); assumption.
  - intros u w_l Hlogged. cbv beta in Hlogged.
    apply wp_bind, wp_save.
    destruct (lib_save lib (out_pages w_l) (output_path self)) as [n | e' [m |]];
      try exact I.
    apply wp_bind, wp_getsize. world_simpl.
    destruct (<[output_path self:=n]> (fs w_l) !! input_path self); [| exact I].
    apply wp_bind, wp_getsize. world_simpl. rewrite lookup_insert_eq.
    repeat wp_step; trivial.
    destruct Hlogged as (l & Hl & Hl_in).
    unfold extends. world_simpl. rewrite Hl, <- !app_assoc.
    eexists. split; [reflexivity |]. apply in_keeps. exact Hl_in.
Qed.


End Absorption.

Lemma pymupdf_succeeds_corrupt_image :
  pymupdf_succeeds Demo.corrupt_image Demo.compressor Demo.doc.
Proof.
  split.
  - reflexivity.
  - reflexivity.
  - intros k page img _ _. simpl.
    destruct (img_xref img =? 7)%Z; eexists; reflexivity.
  - intros k page img _ _. eexists. reflexivity.
  - intros k page img r im p stream _ _ Hr _ _.
    injection Hr as <-. reflexivity.
  - intros pages _. eexists. reflexivity.
Qed.

